(** * Gradientless descent: the stepping core of [GLDTrainer]

    A shallow embedding of the gradient-free part of
    [src/training/gld_trainer.py]: the constructor's search space, the
    forward-only loss, the seeded parameter perturbation, the trial loop,
    the winner selection and the update commit; and, of the training loop
    around it, the control variables, the resume position, the list of
    trainable parameters and the weight-decay name test.

    Parameter values and radii are real numbers (the properties below are
    the exact, real-arithmetic ones); losses are IEEE 754 values
    ([spec_float]), because the winner selection compares them with [<]
    and must be followed through NaN and the infinities.

    The stepping code is read twice. First with a forward pass that
    returns and a scheduler that exists: the selection, the round trip
    and the commit are proved on that reading. Then in full
    ([gld_forward_full], [do_trial_full], [gld_step_full],
    [gld_update_full]), with a forward pass that may raise and a
    scheduler that may not have been created yet: the error paths are
    proved on that one. The two readings agree wherever nothing raises
    ([gld_step_full_returning], [gld_update_full_scheduled]). *)

From Stdlib Require Import String Ascii.
From Stdlib Require Import Reals Lra Lia ZArith List Bool.
From Stdlib Require Import Sorting.Sorted.
From Stdlib Require Import Floats.SpecFloat.
Import ListNotations.

Local Open Scope R_scope.

(** ** Python exceptions and results *)

Inductive exn : Type :=
| AttributeError
| TypeError
| ValueError
| ZeroDivisionError.

Inductive result (A : Type) : Type :=
| Ok (a : A)
| Raise (e : exn).

Arguments Ok {A} a.
Arguments Raise {A} e.

(** ** Losses and their comparison

    A loss is what [gld_forward] returns: a detached scalar. Python's
    [min] asks for [candidate < best], which for numbers is the IEEE 754
    comparison: false whenever one side is NaN. *)

Definition loss : Type := spec_float.

Definition loss_lt (a b : loss) : bool := SFltb a b.
Definition loss_le (a b : loss) : bool := SFleb a b.

Definition nan : loss := S754_nan.
Definition pos_inf : loss := S754_infinity false.
Definition neg_inf : loss := S754_infinity true.

Definition is_nan (a : loss) : bool :=
  match a with S754_nan => true | _ => false end.

Definition is_finite (a : loss) : bool :=
  match a with S754_zero _ | S754_finite _ _ _ => true | _ => false end.

(** The binary64 values nearest to the decimals 0.9, 1.2 and 0.5. *)
Definition f0_9 : loss := S754_finite false 8106479329266893 (-53).
Definition f1_2 : loss := S754_finite false 5404319552844595 (-52).
Definition f0_5 : loss := S754_finite false 4503599627370496 (-53).

(** ** Python's [min(iterable, key=...)]

    CPython keeps the first item as the running minimum and replaces it
    only when [key(item) < key(best)] holds; an empty iterable raises
    [ValueError]. *)

Section PyMin.
Context {A : Type}.
Variable key : A -> loss.

Fixpoint min_scan (best : A) (rest : list A) : A :=
  match rest with
  | [] => best
  | x :: rest' =>
      if loss_lt (key x) (key best) then min_scan x rest'
      else min_scan best rest'
  end.

Definition py_min (l : list A) : result A :=
  match l with
  | [] => Raise ValueError
  | x :: rest => Ok (min_scan x rest)
  end.
End PyMin.

(** What the selection is measured against: no item of [l] is [<=] the
    item [w] under the key, and no item of [l] is [<] it. *)
Definition none_le {A : Type} (key : A -> loss) (w : A) (l : list A) : Prop :=
  Forall (fun x => loss_le (key x) (key w) = false) l.

Definition none_lt {A : Type} (key : A -> loss) (w : A) (l : list A) : Prop :=
  Forall (fun x => loss_lt (key x) (key w) = false) l.

(** ** Tensors and parameters

    A tensor is the flat list of its entries; its size is the length of
    the list. [p.data + scale * v_k] is the entrywise sum of two tensors
    of one size. *)

Definition tensor : Type := list R.

Definition tensor_scale (k : R) (v : tensor) : tensor := map (Rmult k) v.

Fixpoint tensor_add (a b : tensor) : tensor :=
  match a, b with
  | x :: a', y :: b' => (x + y) :: tensor_add a' b'
  | _, _ => []
  end.

Record param : Type := mkParam {
  name : string;
  requires_grad : bool;
  data : tensor
}.

Definition set_data (p : param) (d : tensor) : param :=
  {| name := name p; requires_grad := requires_grad p; data := d |}.

(** The model's parameter objects, in the order of
    [self.model.named_parameters()]. An object is known by its position:
    every list that mentions a parameter (the model's own, and
    [named_parameters_to_optim]) mentions this one object. *)
Definition store : Type := list param.

(** [p.data = d] for the object at position [i]. *)
Fixpoint store_data (m : store) (i : nat) (d : tensor) : store :=
  match m, i with
  | [], _ => []
  | p :: m', O => set_data p d :: m'
  | p :: m', S i' => p :: store_data m' i' d
  end.

(** Lines 219-222: the parameters with [requires_grad], in model order. *)
Fixpoint trainable_from (pos : nat) (m : store) : list nat :=
  match m with
  | [] => []
  | p :: m' =>
      if requires_grad p then pos :: trainable_from (S pos) m'
      else trainable_from (S pos) m'
  end.

Definition collect_named_parameters_to_optim (m : store) : list nat :=
  trainable_from 0 m.

(** ** The weight-decay name test (end of the file) *)

Definition NO_WD_PARAM_NAMES : list string :=
  ["bias"; "layer_norm"; "layernorm"]%string.

(** Python's [t in name] for strings: [t] occurs in [name]. *)
Fixpoint str_in (t s : string) : bool :=
  if String.prefix t s then true
  else match s with
       | EmptyString => false
       | String _ s' => str_in t s'
       end.

Fixpoint _list_not_in_name (search_terms : list string) (n : string) : bool :=
  match search_terms with
  | [] => true
  | t :: rest => if str_in t n then false else _list_not_in_name rest n
  end.

(** ** The trainer object and the process state *)

(** One entry of [self.losses]: [(loss, seed, scale)]; the baseline has
    no scale. *)
Definition trial : Type := (loss * Z * option R)%type.

Definition trial_loss (t : trial) : loss := fst (fst t).
Definition trial_seed (t : trial) : Z := snd (fst t).
Definition trial_scale (t : trial) : option R := snd t.

(** The attributes of [self] that the stepping code reads or writes.
    [gld_seed] and [named_parameters_to_optim] do not exist until they
    are first assigned ([None] here; reading them then raises
    [AttributeError]). [losses] is assigned before it is ever read.
    [lr_scheduler] counts the calls of [lr_scheduler.step()]. *)
Record GLDTrainer : Type := mkGLDTrainer {
  use_gld : bool;
  min_radius : R;
  max_radius : R;
  best_scale : option R;
  log_radius : R;
  search_space : list R;
  model : store;
  named_parameters_to_optim : option (list nat);
  gld_seed : option Z;
  losses : list trial;
  lr_scheduler : nat
}.

(** The global generator of torch: the seed it was last reset to and how
    many samples it has handed out since. *)
Record TorchRng : Type := mkTorchRng {
  rng_seed : Z;
  rng_pos : nat
}.

(** The process: the trainer, torch's global generator, and how many
    numbers numpy's global generator has handed out. *)
Record world : Type := mkWorld {
  self : GLDTrainer;
  torch_rng : TorchRng;
  numpy_pos : nat
}.

Definition with_self (f : GLDTrainer -> GLDTrainer) (w : world) : world :=
  {| self := f (self w); torch_rng := torch_rng w; numpy_pos := numpy_pos w |}.

Definition with_best_scale (v : option R) (t : GLDTrainer) : GLDTrainer :=
  mkGLDTrainer (use_gld t) (min_radius t) (max_radius t) v (log_radius t)
    (search_space t) (model t) (named_parameters_to_optim t) (gld_seed t)
    (losses t) (lr_scheduler t).

Definition with_model (v : store) (t : GLDTrainer) : GLDTrainer :=
  mkGLDTrainer (use_gld t) (min_radius t) (max_radius t) (best_scale t)
    (log_radius t) (search_space t) v (named_parameters_to_optim t)
    (gld_seed t) (losses t) (lr_scheduler t).

Definition with_named_parameters_to_optim (v : option (list nat))
  (t : GLDTrainer) : GLDTrainer :=
  mkGLDTrainer (use_gld t) (min_radius t) (max_radius t) (best_scale t)
    (log_radius t) (search_space t) (model t) v (gld_seed t) (losses t)
    (lr_scheduler t).

Definition with_gld_seed (v : option Z) (t : GLDTrainer) : GLDTrainer :=
  mkGLDTrainer (use_gld t) (min_radius t) (max_radius t) (best_scale t)
    (log_radius t) (search_space t) (model t) (named_parameters_to_optim t)
    v (losses t) (lr_scheduler t).

Definition with_losses (v : list trial) (t : GLDTrainer) : GLDTrainer :=
  mkGLDTrainer (use_gld t) (min_radius t) (max_radius t) (best_scale t)
    (log_radius t) (search_space t) (model t) (named_parameters_to_optim t)
    (gld_seed t) v (lr_scheduler t).

Definition with_lr_scheduler (v : nat) (t : GLDTrainer) : GLDTrainer :=
  mkGLDTrainer (use_gld t) (min_radius t) (max_radius t) (best_scale t)
    (log_radius t) (search_space t) (model t) (named_parameters_to_optim t)
    (gld_seed t) (losses t) v.

(** ** Statements that may raise, over the process state

    A raise keeps the state reached so far: what ran before it has
    happened. *)

Definition M (A : Type) : Type := world -> result A * world.

Definition ret {A : Type} (a : A) : M A := fun w => (Ok a, w).

Definition raise {A : Type} (e : exn) : M A := fun w => (Raise e, w).

Definition bind {A B : Type} (m : M A) (k : A -> M B) : M B :=
  fun w =>
    match m w with
    | (Ok a, w') => k a w'
    | (Raise e, w') => (Raise e, w')
    end.

Declare Scope gld_scope.
Delimit Scope gld_scope with gld.
Notation "x <- m ;; k" := (bind m (fun x => k))
  (at level 61, m at next level, right associativity) : gld_scope.
Notation "m ;; k" := (bind m (fun _ => k))
  (at level 61, right associativity) : gld_scope.
Local Open Scope gld_scope.

Definition gets {A : Type} (f : GLDTrainer -> A) : M A :=
  fun w => (Ok (f (self w)), w).

Definition modify (f : GLDTrainer -> GLDTrainer) : M unit :=
  fun w => (Ok tt, with_self f w).

(** Reading an attribute that may not have been assigned yet. *)
Definition getattr {A : Type} (f : GLDTrainer -> option A) : M A :=
  fun w =>
    match f (self w) with
    | Some a => (Ok a, w)
    | None => (Raise AttributeError, w)
    end.

Fixpoint for_each {A : Type} (l : list A) (body : A -> M unit) : M unit :=
  match l with
  | [] => ret tt
  | x :: l' => body x ;; for_each l' body
  end.

(** [torch.manual_seed(seed)]: the global stream starts over. *)
Definition torch_manual_seed (seed : Z) : M unit :=
  fun w =>
    (Ok tt, {| self := self w;
               torch_rng := {| rng_seed := seed; rng_pos := 0 |};
               numpy_pos := numpy_pos w |}).

(** ** The constructor (lines 76-92) *)

(** Python's [a / b] on numbers. *)
Definition py_truediv (a b : R) : result R :=
  if Req_dec_T b 0 then Raise ZeroDivisionError else Ok (a / b).

(** [math.log(x)]: a domain error unless [x] is positive. *)
Definition math_log (x : R) : result R :=
  if Rlt_dec 0 x then Ok (ln x) else Raise ValueError.

(** [np.linspace(start, stop, num=num).tolist()], end point included:
    [num] samples [start + i * step] with [step = (stop - start) / (num - 1)],
    the last one set to [stop]; one sample is [start] alone, none is the
    empty list, and a negative [num] is refused. *)
Definition linspace_samples (start stop : R) (n : nat) : list R :=
  let div := (n - 1)%nat in
  let delta := stop - start in
  map (fun i =>
         if (0 <? div)%nat then INR i * (delta / INR div) + start
         else INR i * delta + start)
      (seq 0 n).

Definition np_linspace (start stop : R) (num : Z) : result (list R) :=
  if (num <? 0)%Z then Raise ValueError
  else
    let n := Z.to_nat num in
    let y := linspace_samples start stop n in
    Ok (if (1 <? n)%nat then removelast y ++ [stop] else y).

Definition bind_result {A B : Type} (r : result A) (k : A -> result B)
  : result B :=
  match r with
  | Ok a => k a
  | Raise e => Raise e
  end.

(** [kwargs_model] is the model handed on to [Trainer.__init__]. *)
Definition __init__ (use_gld_arg : bool) (min_radius_arg max_radius_arg : R)
  (num_ball_samples : Z) (kwargs_model : store) : result GLDTrainer :=
  bind_result (py_truediv max_radius_arg min_radius_arg) (fun ratio =>
  bind_result (math_log ratio) (fun lr =>
  bind_result (np_linspace 0 lr num_ball_samples) (fun space =>
  Ok {| use_gld := use_gld_arg;
        min_radius := min_radius_arg;
        max_radius := max_radius_arg;
        best_scale := None;
        log_radius := lr;
        search_space := space;
        model := kwargs_model;
        named_parameters_to_optim := None;
        gld_seed := None;
        losses := [];
        lr_scheduler := 0 |}))).

(** The trial scale of one search-space entry (line 576). *)
Definition trial_of_radius (max_radius_val radius : R) : R :=
  Rpower 2 (-1 * radius) * max_radius_val.

(** ** The control variables of the training loop (lines 107-138, 245-250)

    Integers are Python's, with floor division and its remainder. The
    number of epochs asked for is a float: what the float arithmetic on
    it yields is taken as given ([EpochArithmetic]), not computed. *)

Record TrainingArguments : Type := mkTrainingArguments {
  train_batch_size : Z;
  gradient_accumulation_steps : Z;
  world_size : Z;
  args_max_steps : Z;
  ignore_data_skip : bool
}.

(** [math.ceil(args.num_train_epochs)],
    [math.ceil(args.num_train_epochs * n)] and
    [n * args.num_train_epochs]. *)
Record EpochArithmetic : Type := mkEpochArithmetic {
  ceil_epochs : Z;
  ceil_epoch_steps : Z -> Z;
  epoch_samples : Z -> spec_float
}.

(** A Python number: an integer or a float. *)
Inductive py_number : Type :=
| py_int (z : Z)
| py_float (f : spec_float).

Record ControlVariables : Type := mkControlVariables {
  total_train_batch_size : Z;
  num_update_steps_per_epoch : Z;
  num_examples : Z;
  max_steps : Z;
  num_train_epochs : Z;
  num_train_samples : py_number
}.

(** Python's [a // b] on integers. *)
Definition py_floordiv (a b : Z) : result Z :=
  if (b =? 0)%Z then Raise ZeroDivisionError else Ok (a / b)%Z.

(** Python's [a % b] on integers. *)
Definition py_mod (a b : Z) : result Z :=
  if (b =? 0)%Z then Raise ZeroDivisionError else Ok (a mod b)%Z.

Definition sys_maxsize : Z := (2 ^ 63 - 1)%Z.

(** [len_dataloader] is [None] when the data loader has no length;
    [dataset_examples] is [self.num_examples(train_dataloader)]. *)
Definition control_variables (args : TrainingArguments)
  (epochs : EpochArithmetic) (len_dataloader : option Z)
  (dataset_examples : Z) : result ControlVariables :=
  let total :=
    (train_batch_size args * gradient_accumulation_steps args
     * world_size args)%Z in
  match len_dataloader with
  | Some len =>
      bind_result (py_floordiv len (gradient_accumulation_steps args))
        (fun q =>
           let per_epoch := Z.max q 1 in
           if (0 <? args_max_steps args)%Z then
             Ok {| total_train_batch_size := total;
                   num_update_steps_per_epoch := per_epoch;
                   num_examples := dataset_examples;
                   max_steps := args_max_steps args;
                   num_train_epochs :=
                     (args_max_steps args / per_epoch
                      + (if (0 <? args_max_steps args mod per_epoch)%Z
                         then 1 else 0))%Z;
                   num_train_samples :=
                     py_int (args_max_steps args * total) |}
           else
             Ok {| total_train_batch_size := total;
                   num_update_steps_per_epoch := per_epoch;
                   num_examples := dataset_examples;
                   max_steps := ceil_epoch_steps epochs per_epoch;
                   num_train_epochs := ceil_epochs epochs;
                   num_train_samples :=
                     py_float (epoch_samples epochs dataset_examples) |})
  | None =>
      if (0 <? args_max_steps args)%Z then
        Ok {| total_train_batch_size := total;
              num_update_steps_per_epoch := args_max_steps args;
              num_examples := (total * args_max_steps args)%Z;
              max_steps := args_max_steps args;
              num_train_epochs := sys_maxsize;
              num_train_samples :=
                py_int (args_max_steps args * total) |}
      else Raise ValueError
  end.

(** Resuming from a checkpoint saved at [global_step]: the epochs
    already trained and the batches to skip in the current one. *)
Definition resume_position (args : TrainingArguments)
  (per_epoch global_step : Z) : result (Z * Z) :=
  bind_result (py_floordiv global_step per_epoch) (fun epochs_trained =>
  if negb (ignore_data_skip args) then
    bind_result (py_mod global_step per_epoch) (fun r =>
    Ok (epochs_trained, (r * gradient_accumulation_steps args)%Z))
  else Ok (epochs_trained, 0%Z)).

(** ** A small trainer to run the code on

    One trainable parameter with the single entry 0, the configuration
    [min_radius = 1], [max_radius = 8], [num_ball_samples = 1], a sample
    stream that hands out 1, 2, 3, ... after every reset, and seeds
    0, 1, 2, ... from numpy. *)

Definition demo_normal : Z -> nat -> R := fun _ k => INR (S k).

Definition demo_randint : nat -> Z := Z.of_nat.

Definition demo_model : store := [mkParam "weight" true [0]].

Definition demo_trainer : GLDTrainer :=
  {| use_gld := true;
     min_radius := 1;
     max_radius := 8;
     best_scale := None;
     log_radius := ln (8 / 1);
     search_space := [0];
     model := demo_model;
     named_parameters_to_optim := Some (collect_named_parameters_to_optim demo_model);
     gld_seed := None;
     losses := [];
     lr_scheduler := 0 |}.

Definition demo_world : world :=
  {| self := demo_trainer;
     torch_rng := {| rng_seed := 0; rng_pos := 0 |};
     numpy_pos := 0 |}.

(** A loss that is the same whatever the parameters are. *)
Definition loss_const (c : loss) : store -> unit -> loss := fun _ _ => c.

(** A loss that is [a] while the first entry of the first parameter is
    0 and [b] once it has moved. *)
Definition loss_if_moved (a b : loss) : store -> unit -> loss :=
  fun m _ =>
    match m with
    | p :: _ =>
        match data p with
        | x :: _ => if Req_dec_T x 0 then a else b
        | [] => a
        end
    | [] => a
    end.

(** A second model: a frozen parameter in front of the trainable one. *)
Definition frozen_model : store :=
  [mkParam "embed" false [0]; mkParam "weight" true [0]].

Definition frozen_world : world :=
  {| self :=
       {| use_gld := true;
          min_radius := 1;
          max_radius := 8;
          best_scale := Some 1;
          log_radius := ln (8 / 1);
          search_space := [0];
          model := frozen_model;
          named_parameters_to_optim :=
            Some (collect_named_parameters_to_optim frozen_model);
          gld_seed := Some 0%Z;
          losses := [];
          lr_scheduler := 0 |};
     torch_rng := {| rng_seed := 0; rng_pos := 0 |};
     numpy_pos := 0 |}.

(** The demo trainer with an empty search space, and the demo trainer
    before the training loop has listed its parameters. *)
Definition empty_space_world : world :=
  {| self :=
       mkGLDTrainer true 1 8 None (ln (8 / 1)) [] demo_model
         (Some (collect_named_parameters_to_optim demo_model)) None [] 0;
     torch_rng := {| rng_seed := 0; rng_pos := 0 |};
     numpy_pos := 0 |}.


(** Arguments for a run of 10 update steps with two batches each. *)
Definition demo_args : TrainingArguments :=
  {| train_batch_size := 4;
     gradient_accumulation_steps := 2;
     world_size := 1;
     args_max_steps := 10;
     ignore_data_skip := false |}.

(** Three epochs asked for. *)
Definition demo_epochs : EpochArithmetic :=
  {| ceil_epochs := 3;
     ceil_epoch_steps := fun n => (3 * n)%Z;
     epoch_samples := fun _ => S754_zero false |}.

(** A forward pass that always returns, and one that raises [e] once
    the first entry of the first parameter has moved away from 0. *)
Definition forward_returns : store -> unit -> option exn := fun _ _ => None.

Definition raise_if_moved (e : exn) : store -> unit -> option exn :=
  fun m _ =>
    match m with
    | p :: _ =>
        match data p with
        | x :: _ => if Req_dec_T x 0 then None else Some e
        | [] => None
        end
    | [] => None
    end.

(** ** The stepping code (lines 544-624) *)

(** The keyword under which a call of [torch.normal] passes the element
    type. The function knows [dtype]; it refuses a keyword it does not
    know, such as [type], with [TypeError]. *)
Inductive normal_keyword : Type :=
| kw_dtype
| kw_type.

Section GLD.

(** The sample stream of torch's generator: [normal_stream s k] is the
    [k]-th standard normal sample after [torch.manual_seed(s)]. *)
Variable normal_stream : Z -> nat -> R.

(** What numpy's global generator hands out for
    [np.random.randint(1000000000)], call after call. *)
Variable randint_stream : nat -> Z.

(** A batch, and the loss the model computes on it in evaluation mode
    with the given parameter values ([compute_loss] under
    [torch.inference_mode()]). *)
Variable Batch : Type.
Variable compute_loss : store -> Batch -> loss.

(** What stops a forward pass on a batch with the given parameter
    values: the exception that [_prepare_inputs] or [compute_loss]
    raises on it (lines 554-556), if one does. *)
Variable forward_error : store -> Batch -> option exn.

(** Whether [self.lr_scheduler] holds a scheduler. It is [None] from
    the constructor until the training loop creates one (lines 167-190);
    the stepping code reads the attribute and never assigns it. A
    scheduler is one whose [step()] takes no argument, as line 605 calls
    it; [ReduceLROnPlateau], which wants the metrics and which line 459
    sets apart, is not among them. *)
Variable lr_scheduler_created : bool.

Definition np_random_randint : M Z :=
  fun w =>
    (Ok (randint_stream (numpy_pos w)),
     {| self := self w; torch_rng := torch_rng w;
        numpy_pos := S (numpy_pos w) |}).

(** [torch.normal(mean=0, std=1, size=..., device=..., <kw>=...)]: the
    next [size] samples of the global stream. *)
Definition torch_normal (kw : normal_keyword) (size : nat) : M tensor :=
  fun w =>
    match kw with
    | kw_type => (Raise TypeError, w)
    | kw_dtype =>
        let g := torch_rng w in
        (Ok (map (fun i => normal_stream (rng_seed g) (rng_pos g + i))
                 (seq 0 size)),
         {| self := self w;
            torch_rng := {| rng_seed := rng_seed g;
                            rng_pos := rng_pos g + size |};
            numpy_pos := numpy_pos w |})
    end.

(** [p.data = p.data + (scale * v_k)] for the object at position [i]. *)
Definition add_to_data (i : nat) (p : param) (scale : R) (v_k : tensor)
  : M unit :=
  modify (fun t =>
    with_model
      (store_data (model t) i (tensor_add (data p) (tensor_scale scale v_k)))
      t).

Definition gld_forward (inputs : Batch) : M loss :=
  fun w => (Ok (compute_loss (model (self w)) inputs), w).

Definition perturb_parameters (scale : R) (seed : option Z) : M unit :=
  s <- match seed with
       | Some s => ret s
       | None => getattr gld_seed
       end ;;
  torch_manual_seed s ;;
  params <- getattr named_parameters_to_optim ;;
  for_each params (fun i =>
    m <- gets model ;;
    match nth_error m i with
    | Some p =>
        v_k <- torch_normal kw_dtype (length (data p)) ;;
        add_to_data i p scale v_k
    | None => ret tt
    end).

Definition do_trial (inputs : Batch) (scale : R) : M trial :=
  s <- np_random_randint ;;
  modify (with_gld_seed (Some s)) ;;
  perturb_parameters scale None ;;
  l <- gld_forward inputs ;;
  perturb_parameters (-1 * scale) None ;;
  seed <- getattr gld_seed ;;
  ret (l, seed, Some scale).

Definition gld_step (inputs : Batch) : M loss :=
  modify (with_losses []) ;;
  s <- np_random_randint ;;
  modify (with_gld_seed (Some s)) ;;
  l <- gld_forward inputs ;;
  seed <- getattr gld_seed ;;
  modify (fun t => with_losses (losses t ++ [(l, seed, None)]) t) ;;
  space <- gets search_space ;;
  for_each space (fun radius =>
    mx <- gets max_radius ;;
    let trial_scale_val := trial_of_radius mx radius in
    loss_metrics <- do_trial inputs trial_scale_val ;;
    modify (fun t => with_losses (losses t ++ [loss_metrics]) t)) ;;
  ls <- gets losses ;;
  match py_min trial_loss ls with
  | Raise e => raise e
  | Ok lowest_loss =>
      let '(l', seed', scale') := lowest_loss in
      modify (with_gld_seed (Some seed')) ;;
      modify (with_best_scale scale') ;;
      ret l'
  end.

(** The commit. Its call of [torch.normal] passes the element type
    under the keyword [type] (line 595); [gld_update_with] leaves the
    keyword open so that the loop can also be read with the spelling
    that [perturb_parameters] uses. *)
Definition gld_update_with (kw : normal_keyword) : M unit :=
  seed <- getattr gld_seed ;;
  torch_manual_seed seed ;;
  m0 <- gets model ;;
  for_each (seq 0 (length m0)) (fun i =>
    bs <- gets best_scale ;;
    match bs with
    | Some k =>
        m <- gets model ;;
        match nth_error m i with
        | Some p =>
            v_k <- torch_normal kw (length (data p)) ;;
            if _list_not_in_name NO_WD_PARAM_NAMES (name p)
            then add_to_data i p k v_k
            else add_to_data i p k v_k
        | None => ret tt
        end
    | None => ret tt
    end) ;;
  modify (fun t => with_lr_scheduler (S (lr_scheduler t)) t).

Definition gld_update : M unit := gld_update_with kw_type.

(** ** The stepping code with the calls that can stop it

    [gld_forward] above is the forward pass that returns, and the last
    line of [gld_update_with] steps a scheduler that exists. In full,
    the forward pass raises what [_prepare_inputs] or [compute_loss]
    raises, and nothing is caught between the two calls of
    [perturb_parameters] in a trial (lines 610-614); and
    [self.lr_scheduler.step()] (line 605) is a call on [None] until the
    training loop has created the scheduler. *)

Definition gld_forward_full (inputs : Batch) : M loss :=
  fun w =>
    match forward_error (model (self w)) inputs with
    | Some e => (Raise e, w)
    | None => (Ok (compute_loss (model (self w)) inputs), w)
    end.

Definition do_trial_full (inputs : Batch) (scale : R) : M trial :=
  s <- np_random_randint ;;
  modify (with_gld_seed (Some s)) ;;
  perturb_parameters scale None ;;
  l <- gld_forward_full inputs ;;
  perturb_parameters (-1 * scale) None ;;
  seed <- getattr gld_seed ;;
  ret (l, seed, Some scale).

Definition gld_step_full (inputs : Batch) : M loss :=
  modify (with_losses []) ;;
  s <- np_random_randint ;;
  modify (with_gld_seed (Some s)) ;;
  l <- gld_forward_full inputs ;;
  seed <- getattr gld_seed ;;
  modify (fun t => with_losses (losses t ++ [(l, seed, None)]) t) ;;
  space <- gets search_space ;;
  for_each space (fun radius =>
    mx <- gets max_radius ;;
    let trial_scale_val := trial_of_radius mx radius in
    loss_metrics <- do_trial_full inputs trial_scale_val ;;
    modify (fun t => with_losses (losses t ++ [loss_metrics]) t)) ;;
  ls <- gets losses ;;
  match py_min trial_loss ls with
  | Raise e => raise e
  | Ok lowest_loss =>
      let '(l', seed', scale') := lowest_loss in
      modify (with_gld_seed (Some seed')) ;;
      modify (with_best_scale scale') ;;
      ret l'
  end.

(** [self.lr_scheduler.step()]: [None] has no attribute [step]. *)
Definition lr_scheduler_step : M unit :=
  if lr_scheduler_created
  then modify (fun t => with_lr_scheduler (S (lr_scheduler t)) t)
  else raise AttributeError.

Definition gld_update_full : M unit :=
  seed <- getattr gld_seed ;;
  torch_manual_seed seed ;;
  m0 <- gets model ;;
  for_each (seq 0 (length m0)) (fun i =>
    bs <- gets best_scale ;;
    match bs with
    | Some k =>
        m <- gets model ;;
        match nth_error m i with
        | Some p =>
            v_k <- torch_normal kw_type (length (data p)) ;;
            if _list_not_in_name NO_WD_PARAM_NAMES (name p)
            then add_to_data i p k v_k
            else add_to_data i p k v_k
        | None => ret tt
        end
    | None => ret tt
    end) ;;
  lr_scheduler_step.

(** ** The loops read as functions, and the worlds they end in

    These are not code of the trainer: they say, as plain functions of
    the parameter values and the stream position, what its loops compute,
    and the lemmas below prove that the loops compute exactly that. *)

(** The sizes of the parameters, in model order. *)
Definition shape (m : store) : list nat :=
  map (fun p => length (data p)) m.

(** [p.data = p.data + d] for the object at position [i]. *)
Definition add_at (i : nat) (d : tensor) (m : store) : store :=
  match nth_error m i with
  | Some p => store_data m i (tensor_add (data p) d)
  | None => m
  end.

(** [d] has the size of the parameter at [i], if there is one. *)
Definition fits (m : store) (i : nat) (d : tensor) : Prop :=
  forall p, nth_error m i = Some p -> length d = length (data p).

(** The [n] samples that [torch.normal] hands out at position [pos] of
    the stream of seed [s]. *)
Definition draws (s : Z) (pos n : nat) : tensor :=
  map (fun i => normal_stream s (pos + i)) (seq 0 n).

(** The loop of [perturb_parameters] over the listed parameters, from
    stream position [pos]: the position and the values it ends with. *)
Fixpoint sweep (s : Z) (k : R) (idxs : list nat) (pos : nat) (m : store)
  : nat * store :=
  match idxs with
  | [] => (pos, m)
  | i :: rest =>
      match nth_error m i with
      | Some p =>
          let n := length (data p) in
          sweep s k rest (pos + n) (add_at i (tensor_scale k (draws s pos n)) m)
      | None => sweep s k rest pos m
      end
  end.

(** The world after a sweep that started from seed [s]: new parameter
    values, a stream position, everything else as it was. *)
Definition swept (w : world) (s : Z) (r : nat * store) : world :=
  {| self := with_model (snd r) (self w);
     torch_rng := {| rng_seed := s; rng_pos := fst r |};
     numpy_pos := numpy_pos w |}.

(** The body of the loop of [perturb_parameters]. *)
Definition perturb_body (scale : R) (i : nat) : M unit :=
  m <- gets model ;;
  match nth_error m i with
  | Some p =>
      v_k <- torch_normal kw_dtype (length (data p)) ;;
      add_to_data i p scale v_k
  | None => ret tt
  end.

(** The seed a call of [perturb_parameters] resets the stream to. *)
Definition resolve_seed (seed : option Z) (w : world) : option Z :=
  match seed with
  | Some s => Some s
  | None => gld_seed (self w)
  end.

(** The world after one trial that drew seed [s]: the seed is recorded,
    both generators have moved on, the parameter values are back. *)
Definition tried (w : world) (s : Z) (pos : nat) : world :=
  {| self := with_gld_seed (Some s) (self w);
     torch_rng := {| rng_seed := s; rng_pos := pos |};
     numpy_pos := S (numpy_pos w) |}.

(** The trials of one step, read as a function: one per radius, each
    with the next seed of numpy's generator, each evaluated on the
    parameters swept from that seed with that radius's scale. *)
Fixpoint trials_from (inputs : Batch) (m : store) (idxs : list nat) (mx : R)
  (np : nat) (space : list R) : list trial :=
  match space with
  | [] => []
  | radius :: rest =>
      let s := randint_stream np in
      let k := trial_of_radius mx radius in
      (compute_loss (snd (sweep s k idxs 0 m)) inputs, s, Some k)
      :: trials_from inputs m idxs mx (S np) rest
  end.

(** The first entry of [losses]: the loss of the parameters as they are,
    with the seed drawn at the start of the step and no scale. *)
Definition baseline_trial (inputs : Batch) (w : world) : trial :=
  (compute_loss (model (self w)) inputs, randint_stream (numpy_pos w), None).

(** The body of the trial loop of [gld_step]. *)
Definition trial_body (inputs : Batch) (radius : R) : M unit :=
  mx <- gets max_radius ;;
  let trial_scale_val := trial_of_radius mx radius in
  loss_metrics <- do_trial inputs trial_scale_val ;;
  modify (fun t => with_losses (losses t ++ [loss_metrics]) t).

(** The world after the trial loop: more entries in [losses], some
    recorded seed, the generators moved on. *)
Definition looped (w : world) (ts : list trial) (g : option Z)
  (tr : TorchRng) (n : nat) : world :=
  {| self := with_losses (losses (self w) ++ ts) (with_gld_seed g (self w));
     torch_rng := tr;
     numpy_pos := numpy_pos w + n |}.

(** The world after a step: the trial set is recorded, the winner's seed
    and scale are recorded, the generators have moved on; nothing else
    has changed. *)
Definition stepped (w : world) (ls : list trial) (win : trial)
  (tr : TorchRng) : world :=
  {| self := with_best_scale (trial_scale win)
               (with_gld_seed (Some (trial_seed win))
                  (with_losses ls (self w)));
     torch_rng := tr;
     numpy_pos := S (numpy_pos w) + length (search_space (self w)) |}.

(** The perturbed trials of a step started in [w], and the entry that
    [min] selects among the baseline and them. *)
Definition step_trials (inputs : Batch) (w : world) (idxs : list nat)
  : list trial :=
  trials_from inputs (model (self w)) idxs (max_radius (self w))
    (S (numpy_pos w)) (search_space (self w)).

Definition step_winner (inputs : Batch) (w : world) (idxs : list nat)
  : trial :=
  min_scan trial_loss (baseline_trial inputs w) (step_trials inputs w idxs).

(** The body of the loop of the commit. *)
Definition update_body (kw : normal_keyword) (i : nat) : M unit :=
  bs <- gets best_scale ;;
  match bs with
  | Some k =>
      m <- gets model ;;
      match nth_error m i with
      | Some p =>
          v_k <- torch_normal kw (length (data p)) ;;
          if _list_not_in_name NO_WD_PARAM_NAMES (name p)
          then add_to_data i p k v_k
          else add_to_data i p k v_k
      | None => ret tt
      end
  | None => ret tt
  end.

(** The world after a commit from seed [s]. *)
Definition committed (w : world) (s : Z) (r : nat * store) : world :=
  {| self := with_lr_scheduler (S (lr_scheduler (self w)))
               (with_model (snd r) (self w));
     torch_rng := {| rng_seed := s; rng_pos := fst r |};
     numpy_pos := numpy_pos w |}.

(** A statement that ends, normally or not, with the parameter values
    it started from. *)
Definition keeps_model {A : Type} (c : M A) : Prop :=
  forall w, model (self (snd (c w))) = model (self w).

(** The number of entries of the listed parameters, counted with
    repetition; a position that names no parameter counts for none. *)
Fixpoint listed_entries (sh : list nat) (idxs : list nat) : nat :=
  match idxs with
  | [] => 0
  | i :: rest =>
      match nth_error sh i with
      | Some n => n + listed_entries sh rest
      | None => listed_entries sh rest
      end
  end.

(** The same process with torch's global generator in another state. *)
Definition with_torch_rng (g : TorchRng) (w : world) : world :=
  {| self := self w; torch_rng := g; numpy_pos := numpy_pos w |}.

(** Torch's generator after a step started in [w]: untouched when the
    search space is empty, otherwise reset by the last trial. *)
Definition step_rng (w : world) (idxs : list nat) : TorchRng :=
  match search_space (self w) with
  | [] => torch_rng w
  | _ :: _ =>
      {| rng_seed :=
           randint_stream (numpy_pos w + length (search_space (self w)));
         rng_pos := listed_entries (shape (model (self w))) idxs |}
  end.


(** What the training loop asks of the stepping code, batch after batch:
    a step on a batch (line 379) or a commit (line 405). *)
Inductive gld_call : Type :=
| call_step (inputs : Batch)
| call_update.

Definition run_call (c : gld_call) : M unit :=
  match c with
  | call_step inputs => _ <- gld_step_full inputs ;; ret tt
  | call_update => gld_update_full
  end.

(** The body of the trial loop of the step in full. *)
Definition trial_body_full (inputs : Batch) (radius : R) : M unit :=
  mx <- gets max_radius ;;
  let trial_scale_val := trial_of_radius mx radius in
  loss_metrics <- do_trial_full inputs trial_scale_val ;;
  modify (fun t => with_losses (losses t ++ [loss_metrics]) t).

(** The world a trial is left in when its forward pass raises: the seed
    [s] is recorded, both generators have moved on, and the parameters
    hold the perturbed values; the second call of [perturb_parameters]
    has not run. *)
Definition interrupted (w : world) (s : Z) (r : nat * store) : world :=
  {| self := with_model (snd r) (with_gld_seed (Some s) (self w));
     torch_rng := {| rng_seed := s; rng_pos := fst r |};
     numpy_pos := S (numpy_pos w) |}.

(** The first trial of a step whose forward pass raises, if there is
    one: the exception, and the perturbed parameter values it is raised
    on. The trials are those of [trials_from]. *)
Fixpoint first_failure (inputs : Batch) (m : store) (idxs : list nat)
  (mx : R) (np : nat) (space : list R) : option (exn * store) :=
  match space with
  | [] => None
  | radius :: rest =>
      let m' := snd (sweep (randint_stream np) (trial_of_radius mx radius)
                       idxs 0 m) in
      match forward_error m' inputs with
      | Some e => Some (e, m')
      | None => first_failure inputs m idxs mx (S np) rest
      end
  end.

(** The world at the head of the trial loop of a step: the baseline
    trial is recorded alone, with the seed drawn for it. *)
Definition step_entry (inputs : Batch) (w : world) : world :=
  {| self := with_losses [baseline_trial inputs w]
               (with_gld_seed (Some (randint_stream (numpy_pos w))) (self w));
     torch_rng := torch_rng w;
     numpy_pos := S (numpy_pos w) |}.

(** The end of a step: [min] over the recorded trials, and the
    assignments of its result. *)
Definition select_lowest : M loss :=
  ls <- gets losses ;;
  match py_min trial_loss ls with
  | Raise e => raise e
  | Ok lowest_loss =>
      let '(l', seed', scale') := lowest_loss in
      modify (with_gld_seed (Some seed')) ;;
      modify (with_best_scale scale') ;;
      ret l'
  end.

(** The world after the first line of the commit: torch's generator is
    reset to the recorded seed. *)
Definition reseeded (w : world) (s : Z) : world :=
  {| self := self w;
     torch_rng := {| rng_seed := s; rng_pos := 0 |};
     numpy_pos := numpy_pos w |}.

(** ** Order facts about the IEEE comparison *)

Ltac float_order :=
  repeat match goal with
  | H : context [Z.compare ?a ?b] |- _ =>
      let E := fresh "E" in
      destruct (Z.compare_spec a b) as [E|E|E]; try discriminate H
  | |- context [Z.compare ?a ?b] =>
      let E := fresh "E" in destruct (Z.compare_spec a b) as [E|E|E]
  | H : context [Pos.compare_cont Eq ?a ?b] |- _ =>
      let E := fresh "E" in
      change (Pos.compare_cont Eq a b) with (Pos.compare a b) in H;
      destruct (Pos.compare_spec a b) as [E|E|E]; try discriminate H
  | |- context [Pos.compare_cont Eq ?a ?b] =>
      let E := fresh "E" in
      change (Pos.compare_cont Eq a b) with (Pos.compare a b);
      destruct (Pos.compare_spec a b) as [E|E|E]
  end; subst; simpl in *; try reflexivity; try discriminate; try lia.

Lemma loss_lt_le (a b : loss) : loss_lt a b = true -> loss_le a b = true.
Proof.
  unfold loss_lt, loss_le, SFltb, SFleb.
  destruct (SFcompare a b) as [[]|]; easy.
Qed.

Lemma loss_lt_not_ge (a b : loss) : loss_lt a b = true -> loss_le b a = false.
Proof.
  unfold loss_lt, loss_le, SFltb, SFleb.
  destruct a as [[]|[]| |[] ma ea], b as [[]|[]| |[] mb eb]; simpl;
    try reflexivity; try discriminate; intros H; float_order.
Qed.

Lemma loss_le_lt_trans (a b c : loss) :
  loss_le a b = true -> loss_lt b c = true -> loss_lt a c = true.
Proof.
  unfold loss_lt, loss_le, SFltb, SFleb.
  destruct a as [[]|[]| |[] ma ea], b as [[]|[]| |[] mb eb],
           c as [[]|[]| |[] mc ec]; simpl;
    try reflexivity; try discriminate; intros H1 H2; float_order.
Qed.

Lemma loss_lt_nan_r (a : loss) : loss_lt a nan = false.
Proof. destruct a as [[]|[]| |[] ? ?]; reflexivity. Qed.

(** ** What the scan of [min] selects

    The list splits around the selected item: nothing before it is
    [<=] it, nothing after it is [<] it. *)

Section PyMinFacts.
Context {A : Type}.
Variable key : A -> loss.

Lemma none_le_step (b x : A) (pre mid : list A) :
  none_le key b pre -> none_lt key b mid -> loss_lt (key x) (key b) = true ->
  none_le key x (pre ++ b :: mid).
Proof.
  intros Hpre Hmid Hx. unfold none_le, none_lt in *.
  apply Forall_app; split; [|constructor].
  - eapply Forall_impl; [|exact Hpre]. cbv beta. intros y Hy.
    destruct (loss_le (key y) (key x)) eqn:E; [|reflexivity].
    rewrite (loss_lt_le _ _ (loss_le_lt_trans _ _ _ E Hx)) in Hy.
    discriminate.
  - now apply loss_lt_not_ge.
  - eapply Forall_impl; [|exact Hmid]. cbv beta. intros y Hy.
    destruct (loss_le (key y) (key x)) eqn:E; [|reflexivity].
    rewrite (loss_le_lt_trans _ _ _ E Hx) in Hy. discriminate.
Qed.

Lemma min_scan_split (rest : list A) :
  forall (pre : list A) (best : A) (mid : list A),
    none_le key best pre -> none_lt key best mid ->
    exists before after,
      pre ++ best :: mid ++ rest = before ++ min_scan key best rest :: after
      /\ none_le key (min_scan key best rest) before
      /\ none_lt key (min_scan key best rest) after.
Proof.
  induction rest as [|x rest IH]; intros pre best mid Hpre Hmid; simpl.
  - exists pre, mid. now rewrite app_nil_r.
  - destruct (loss_lt (key x) (key best)) eqn:E.
    + destruct (IH (pre ++ best :: mid) x []) as (bf & af & Heq & H1 & H2).
      * now apply none_le_step.
      * constructor.
      * exists bf, af. rewrite <- Heq. simpl.
        now rewrite <- app_assoc.
    + destruct (IH pre best (mid ++ [x])) as (bf & af & Heq & H1 & H2).
      * exact Hpre.
      * apply Forall_app; split; [exact Hmid|]. now constructor.
      * exists bf, af. rewrite <- Heq. now rewrite <- app_assoc.
Qed.

Lemma min_scan_keeps_best (rest : list A) (best : A) :
  none_lt key best rest -> min_scan key best rest = best.
Proof.
  induction rest as [|x rest IH]; intros H; simpl; [reflexivity|].
  inversion H as [|? ? Hx Hrest]; subst. rewrite Hx. now apply IH.
Qed.

End PyMinFacts.

(** ** Tensors and the store *)

Lemma tensor_scale_length (k : R) (v : tensor) :
  length (tensor_scale k v) = length v.
Proof. apply length_map. Qed.

Lemma tensor_add_length (a b : tensor) :
  length b = length a -> length (tensor_add a b) = length a.
Proof.
  revert b; induction a as [|x a IH]; intros [|y b] H; simpl in *;
    try reflexivity; try discriminate.
  f_equal. apply IH. now injection H.
Qed.

Lemma tensor_add_swap (x d e : tensor) :
  tensor_add (tensor_add x e) d = tensor_add (tensor_add x d) e.
Proof.
  revert d e; induction x as [|a x IH]; intros [|b d] [|c e]; simpl;
    try reflexivity.
  f_equal; [lra | apply IH].
Qed.

Lemma tensor_add_undo (k : R) (a v : tensor) :
  length v = length a ->
  tensor_add (tensor_add a (tensor_scale k v)) (tensor_scale (-1 * k) v) = a.
Proof.
  revert v; induction a as [|x a IH]; intros [|y v] H; simpl in *;
    try reflexivity; try discriminate.
  f_equal; [lra | apply IH; now injection H].
Qed.

Lemma add_at_cons_S (p : param) (m : store) (i : nat) (d : tensor) :
  add_at (S i) d (p :: m) = p :: add_at i d m.
Proof. unfold add_at; simpl. now destruct (nth_error m i). Qed.

Lemma add_at_shape (m : store) :
  forall i d, fits m i d -> shape (add_at i d m) = shape m.
Proof.
  induction m as [|p m IH]; intros [|i] d H; try reflexivity.
  - unfold add_at; simpl. f_equal. apply tensor_add_length.
    now apply H.
  - rewrite add_at_cons_S. simpl. f_equal. apply IH.
    intros q Hq. now apply H.
Qed.

Lemma add_at_swap (m : store) :
  forall i j d e, add_at i d (add_at j e m) = add_at j e (add_at i d m).
Proof.
  induction m as [|p m IH]; intros [|i] [|j] d e; try reflexivity.
  - unfold add_at; simpl. now rewrite tensor_add_swap.
  - unfold add_at; simpl. now destruct (nth_error m j).
  - unfold add_at; simpl. now destruct (nth_error m i).
  - rewrite !add_at_cons_S. f_equal. apply IH.
Qed.

Lemma add_at_undo (k : R) (v : tensor) (m : store) :
  forall i, fits m i v ->
    add_at i (tensor_scale (-1 * k) v) (add_at i (tensor_scale k v) m) = m.
Proof.
  induction m as [|p m IH]; intros [|i] H; try reflexivity.
  - unfold add_at; simpl. rewrite tensor_add_undo by now apply H.
    now destruct p.
  - rewrite !add_at_cons_S. f_equal. apply IH.
    intros q Hq. now apply H.
Qed.

Lemma shape_nth_error (m m' : store) (i : nat) (p : param) :
  shape m' = shape m -> nth_error m i = Some p ->
  exists p', nth_error m' i = Some p' /\ length (data p') = length (data p).
Proof.
  intros Hs Hp.
  assert (H : nth_error (shape m') i = Some (length (data p))).
  { rewrite Hs. unfold shape. rewrite nth_error_map, Hp. reflexivity. }
  unfold shape in H. rewrite nth_error_map in H.
  destruct (nth_error m' i) as [p'|]; [|discriminate].
  exists p'. split; [reflexivity|]. now injection H.
Qed.

Lemma shape_nth_error_None (m m' : store) (i : nat) :
  shape m' = shape m -> nth_error m i = None -> nth_error m' i = None.
Proof.
  intros Hs Hp. apply nth_error_None. apply nth_error_None in Hp.
  assert (H : length (shape m') = length (shape m)) by now rewrite Hs.
  unfold shape in H. rewrite !length_map in H. lia.
Qed.

Lemma fits_shape (m m' : store) (i : nat) (d : tensor) :
  shape m' = shape m -> fits m i d -> fits m' i d.
Proof.
  intros Hs H p' Hp'.
  destruct (shape_nth_error m' m i p' (eq_sym Hs) Hp') as (p & Hp & Hl).
  rewrite <- Hl. now apply H.
Qed.

(** ** One sweep of [perturb_parameters] *)

Lemma draws_length (s : Z) (pos n : nat) : length (draws s pos n) = n.
Proof. unfold draws. now rewrite length_map, length_seq. Qed.

Lemma draws_fits (s : Z) (k : R) (pos : nat) (m : store) (i : nat) (p : param) :
  nth_error m i = Some p ->
  fits m i (tensor_scale k (draws s pos (length (data p)))).
Proof.
  intros Hp q Hq. rewrite Hp in Hq. injection Hq as <-.
  now rewrite tensor_scale_length, draws_length.
Qed.

Lemma sweep_shape (s : Z) (k : R) (idxs : list nat) :
  forall pos m, shape (snd (sweep s k idxs pos m)) = shape m.
Proof.
  induction idxs as [|i rest IH]; intros pos m; simpl; [reflexivity|].
  destruct (nth_error m i) as [p|] eqn:Hp; [|apply IH].
  rewrite IH. apply add_at_shape. now apply draws_fits.
Qed.

(** An addition made beforehand commutes with the sweep, and the stream
    positions do not see it. *)
Lemma sweep_add_at (s : Z) (k : R) (idxs : list nat) :
  forall pos m i d, fits m i d ->
    sweep s k idxs pos (add_at i d m)
    = (fst (sweep s k idxs pos m), add_at i d (snd (sweep s k idxs pos m))).
Proof.
  induction idxs as [|j rest IH]; intros pos m i d Hd; simpl; [reflexivity|].
  destruct (nth_error m j) as [p|] eqn:Hp.
  - destruct (shape_nth_error m (add_at i d m) j p (add_at_shape m i d Hd) Hp)
      as (p' & Hp' & Hl).
    rewrite Hp', Hl, add_at_swap. apply IH.
    eapply fits_shape; [|exact Hd].
    apply add_at_shape. now apply draws_fits.
  - rewrite (shape_nth_error_None m (add_at i d m) j (add_at_shape m i d Hd) Hp).
    now apply IH.
Qed.

(** The sweep with the opposite scale, from the same seed and stream
    position, undoes the sweep. *)
Lemma sweep_undo (s : Z) (k : R) (idxs : list nat) :
  forall pos m,
    sweep s (-1 * k) idxs pos (snd (sweep s k idxs pos m))
    = (fst (sweep s k idxs pos m), m).
Proof.
  induction idxs as [|i rest IH]; intros pos m; simpl; [reflexivity|].
  destruct (nth_error m i) as [p|] eqn:Hp.
  - set (n := length (data p)). set (v := draws s pos n).
    assert (Hfit : fits m i (tensor_scale k v)) by now apply draws_fits.
    rewrite (sweep_add_at s k rest (pos + n) m i _ Hfit). simpl.
    set (B := snd (sweep s k rest (pos + n) m)).
    assert (HB : shape B = shape m) by apply sweep_shape.
    assert (HBi : shape (add_at i (tensor_scale k v) B) = shape m).
    { rewrite add_at_shape; [exact HB|]. now apply (fits_shape m). }
    destruct (shape_nth_error m _ i p HBi Hp) as (p' & Hp' & Hl).
    rewrite Hp', Hl. fold n. fold v.
    rewrite add_at_undo.
    + apply IH.
    + apply (fits_shape m); [exact HB|].
      intros q Hq. rewrite Hp in Hq. injection Hq as <-.
      unfold v. now rewrite draws_length.
  - rewrite (shape_nth_error_None m _ i (sweep_shape s k rest pos m) Hp).
    apply IH.
Qed.

(** ** Running the stepping code *)

Lemma perturb_loop_run (k : R) (idxs : list nat) :
  forall w,
    for_each idxs (perturb_body k) w
    = (Ok tt,
       swept w (rng_seed (torch_rng w))
         (sweep (rng_seed (torch_rng w)) k idxs (rng_pos (torch_rng w))
            (model (self w)))).
Proof.
  induction idxs as [|i rest IH]; intros w.
  - destruct w as [[] [] ?]. reflexivity.
  - simpl. unfold bind at 1. unfold perturb_body at 1.
    unfold bind at 1. unfold gets at 1. simpl.
    destruct (nth_error (model (self w)) i) as [p|] eqn:Hp.
    + unfold bind at 1. unfold torch_normal at 1.
      unfold add_to_data, modify. rewrite IH. simpl.
      unfold add_at. rewrite Hp. unfold swept, draws.
      destruct w as [[] [] ?]. reflexivity.
    + unfold ret at 1. apply IH.
Qed.

Lemma perturb_parameters_run (k : R) (seed : option Z) (w : world)
  (s : Z) (idxs : list nat) :
  resolve_seed seed w = Some s ->
  named_parameters_to_optim (self w) = Some idxs ->
  perturb_parameters k seed w
  = (Ok tt, swept w s (sweep s k idxs 0 (model (self w)))).
Proof.
  intros Hs Hn. unfold perturb_parameters.
  change (fun i : nat => _) with (perturb_body k).
  unfold bind at 1.
  assert (E : (match seed with Some s0 => ret s0 | None => getattr gld_seed end) w
              = (Ok s, w)).
  { destruct seed as [s0|]; simpl in Hs.
    - now injection Hs as ->.
    - unfold getattr. now rewrite Hs. }
  rewrite E. unfold bind at 1. unfold torch_manual_seed at 1.
  unfold bind at 1. unfold getattr at 1. simpl. rewrite Hn.
  rewrite perturb_loop_run. reflexivity.
Qed.

(** Whatever happens, a failed attribute read included, the two calls of
    one trial leave the parameter values as they were. *)
Lemma perturb_parameters_model_raise (k : R) (seed : option Z) (w : world) :
  named_parameters_to_optim (self w) = None \/ resolve_seed seed w = None ->
  fst (perturb_parameters k seed w) = Raise AttributeError
  /\ self (snd (perturb_parameters k seed w)) = self w.
Proof.
  intros H. unfold perturb_parameters.
  cbv [bind ret getattr torch_manual_seed].
  destruct seed as [s0|]; simpl in *.
  - destruct H as [H|H]; [|discriminate]. rewrite H. now split.
  - destruct (gld_seed (self w)) as [s0|] eqn:Hs; simpl.
    + destruct H as [H|H]; [|discriminate]. rewrite H. now split.
    + now split.
Qed.

Lemma do_trial_run (inputs : Batch) (k : R) (w : world) (idxs : list nat) :
  named_parameters_to_optim (self w) = Some idxs ->
  let s := randint_stream (numpy_pos w) in
  let r := sweep s k idxs 0 (model (self w)) in
  do_trial inputs k w
  = (Ok (compute_loss (snd r) inputs, s, Some k), tried w s (fst r)).
Proof.
  intros Hn s r. unfold do_trial.
  unfold bind at 1. unfold np_random_randint at 1.
  unfold bind at 1. unfold modify at 1.
  unfold bind at 1.
  rewrite (perturb_parameters_run k None _ s idxs);
    [|reflexivity|exact Hn].
  unfold bind at 1. unfold gld_forward at 1.
  unfold bind at 1.
  rewrite (perturb_parameters_run (-1 * k) None _ s idxs);
    [|reflexivity|exact Hn].
  cbv [bind getattr ret]. simpl.
  fold s. rewrite sweep_undo. fold r. simpl.
  unfold tried. destruct w as [[] ? ?]. reflexivity.
Qed.

Lemma trials_loop_run (inputs : Batch) (idxs : list nat) (space : list R) :
  forall w,
    named_parameters_to_optim (self w) = Some idxs ->
    exists g tr,
      for_each space (trial_body inputs) w
      = (Ok tt,
         looped w
           (trials_from inputs (model (self w)) idxs (max_radius (self w))
              (numpy_pos w) space)
           g tr (length space)).
Proof.
  induction space as [|radius rest IH]; intros w Hn.
  - exists (gld_seed (self w)), (torch_rng w). simpl. unfold ret, looped.
    rewrite app_nil_r, Nat.add_0_r. destruct w as [[] ? ?]. reflexivity.
  - simpl. unfold bind at 1. unfold trial_body at 1.
    unfold bind at 1. unfold gets at 1.
    unfold bind at 1. rewrite (do_trial_run inputs _ w idxs Hn).
    unfold modify at 1.
    match goal with
    | |- context [for_each rest _ ?w1] =>
        destruct (IH w1) as (g & tr & E); [exact Hn|]
    end.
    exists g, tr. rewrite E. simpl. unfold looped. simpl.
    rewrite <- app_assoc, Nat.add_succ_r. reflexivity.
Qed.

Lemma gld_step_run (inputs : Batch) (w : world) (idxs : list nat) :
  named_parameters_to_optim (self w) = Some idxs ->
  exists tr,
    gld_step inputs w
    = (Ok (trial_loss (step_winner inputs w idxs)),
       stepped w (baseline_trial inputs w :: step_trials inputs w idxs)
         (step_winner inputs w idxs) tr).
Proof.
  intros Hn. unfold gld_step.
  change (fun radius : R => _) with (trial_body inputs).
  unfold bind at 1. unfold modify at 1.
  unfold bind at 1. unfold np_random_randint at 1.
  unfold bind at 1. unfold modify at 1.
  unfold bind at 1. unfold gld_forward at 1.
  unfold bind at 1. unfold getattr at 1. simpl gld_seed. cbv iota.
  unfold bind at 1. unfold modify at 1.
  unfold bind at 1. unfold gets at 1.
  unfold bind at 1.
  match goal with
  | |- context [for_each _ _ ?w1] =>
      destruct (trials_loop_run inputs idxs (search_space (self w)) w1)
        as (g & tr & E); [exact Hn|]
  end.
  exists tr. simpl in E. simpl. rewrite E.
  unfold bind at 1. unfold gets at 1. simpl.
  fold (baseline_trial inputs w). fold (step_trials inputs w idxs).
  fold (step_winner inputs w idxs).
  destruct (step_winner inputs w idxs) as [[l' seed'] scale'].
  cbv [bind modify ret]. unfold stepped. simpl.
  destruct w as [[] ? ?]. reflexivity.
Qed.

(** ** Running the commit *)

Lemma update_loop_baseline (kw : normal_keyword) (idxs : list nat) (w : world) :
  best_scale (self w) = None ->
  for_each idxs (update_body kw) w = (Ok tt, w).
Proof.
  intros Hb. induction idxs as [|i rest IH]; [reflexivity|].
  simpl. unfold bind at 1. unfold update_body at 1.
  unfold bind at 1. unfold gets at 1. rewrite Hb. unfold ret at 1.
  exact IH.
Qed.

Lemma update_loop_dtype (k : R) (idxs : list nat) :
  forall w,
    best_scale (self w) = Some k ->
    for_each idxs (update_body kw_dtype) w
    = (Ok tt,
       swept w (rng_seed (torch_rng w))
         (sweep (rng_seed (torch_rng w)) k idxs (rng_pos (torch_rng w))
            (model (self w)))).
Proof.
  induction idxs as [|i rest IH]; intros w Hb.
  - destruct w as [[] [] ?]. reflexivity.
  - simpl. unfold bind at 1. unfold update_body at 1.
    unfold bind at 1. unfold gets at 1. rewrite Hb.
    unfold bind at 1. unfold gets at 1. simpl.
    destruct (nth_error (model (self w)) i) as [p|] eqn:Hp.
    + unfold bind at 1. unfold torch_normal at 1.
      assert (E : forall v,
        (if _list_not_in_name NO_WD_PARAM_NAMES (name p)
         then add_to_data i p k v else add_to_data i p k v)
        = add_to_data i p k v)
        by (intros v; now destruct (_list_not_in_name _ _)).
      rewrite E. unfold add_to_data, modify. rewrite IH by exact Hb.
      simpl. unfold add_at. rewrite Hp. unfold swept, draws.
      destruct w as [[] [] ?]. reflexivity.
    + unfold ret at 1. now apply IH.
Qed.

(** No seed recorded: the commit stops at its first line. *)
Lemma gld_update_unset (kw : normal_keyword) (w : world) :
  gld_seed (self w) = None ->
  gld_update_with kw w = (Raise AttributeError, w).
Proof.
  intros Hs. unfold gld_update_with. unfold bind at 1.
  unfold getattr. now rewrite Hs.
Qed.

(** The baseline won: no parameter is touched, the schedule advances. *)
Lemma gld_update_baseline (kw : normal_keyword) (w : world) (s : Z) :
  gld_seed (self w) = Some s ->
  best_scale (self w) = None ->
  gld_update_with kw w = (Ok tt, committed w s (0%nat, model (self w))).
Proof.
  intros Hs Hb. unfold gld_update_with.
  change (fun i : nat => _) with (update_body kw).
  unfold bind at 1. unfold getattr at 1. rewrite Hs.
  unfold bind at 1. unfold torch_manual_seed at 1.
  unfold bind at 1. unfold gets at 1.
  unfold bind at 1. rewrite update_loop_baseline by exact Hb.
  unfold modify, committed. simpl.
  destruct w as [[] ? ?]. reflexivity.
Qed.

Lemma update_body_type_raises (i : nat) (w : world) (k : R) (p : param) :
  best_scale (self w) = Some k ->
  nth_error (model (self w)) i = Some p ->
  update_body kw_type i w = (Raise TypeError, w).
Proof.
  intros Hb Hp. unfold update_body.
  unfold bind at 1. unfold gets at 1. rewrite Hb.
  unfold bind at 1. unfold gets at 1. rewrite Hp.
  unfold bind at 1. reflexivity.
Qed.

(** A perturbed trial won and the model has a parameter: the call of
    [torch.normal] for the first parameter is refused, after the stream
    was reset and before anything was added. *)
Lemma gld_update_winner_raises (w : world) (s : Z) (k : R) (p : param)
  (rest : store) :
  gld_seed (self w) = Some s ->
  best_scale (self w) = Some k ->
  model (self w) = p :: rest ->
  gld_update w
  = (Raise TypeError,
     {| self := self w;
        torch_rng := {| rng_seed := s; rng_pos := 0 |};
        numpy_pos := numpy_pos w |}).
Proof.
  intros Hs Hb Hm. unfold gld_update, gld_update_with.
  change (fun i : nat => _) with (update_body kw_type).
  unfold bind at 1. unfold getattr at 1. rewrite Hs.
  unfold bind at 1. unfold torch_manual_seed at 1.
  unfold bind at 1. unfold gets at 1. cbn [self].
  rewrite Hm. cbn [length seq for_each].
  unfold bind at 1. unfold bind at 1.
  rewrite (update_body_type_raises 0 _ k p); [reflexivity|exact Hb|].
  cbn [self]. now rewrite Hm.
Qed.

(** With the keyword spelled [dtype], the commit is one sweep over every
    parameter of the model, trainable or not. *)
Lemma gld_update_dtype_run (w : world) (s : Z) (k : R) :
  gld_seed (self w) = Some s ->
  best_scale (self w) = Some k ->
  gld_update_with kw_dtype w
  = (Ok tt,
     committed w s
       (sweep s k (seq 0 (length (model (self w)))) 0 (model (self w)))).
Proof.
  intros Hs Hb. unfold gld_update_with.
  change (fun i : nat => _) with (update_body kw_dtype).
  unfold bind at 1. unfold getattr at 1. rewrite Hs.
  unfold bind at 1. unfold torch_manual_seed at 1.
  unfold bind at 1. unfold gets at 1.
  unfold bind at 1. rewrite (update_loop_dtype k) by exact Hb.
  unfold modify, committed. simpl.
  destruct w as [[] ? ?]. reflexivity.
Qed.

(** The list built at lines 219-222 holds the positions of the
    parameters with [requires_grad], and only those. *)
Lemma trainable_from_In (m : store) :
  forall pos i,
    In i (trainable_from pos m)
    <-> exists p, (pos <= i)%nat /\ nth_error m (i - pos) = Some p
                  /\ requires_grad p = true.
Proof.
  induction m as [|q m IH]; intros pos i; simpl.
  - split; [intros [] | intros (p & _ & H & _)].
    now destruct (i - pos)%nat.
  - assert (Hrest : In i (trainable_from (S pos) m)
                    <-> exists p, (pos < i)%nat
                                  /\ nth_error m (i - S pos) = Some p
                                  /\ requires_grad p = true).
    { rewrite IH. split; intros (p & H1 & H2); exists p; (split; [lia|exact H2]). }
    destruct (requires_grad q) eqn:Hq; simpl; rewrite Hrest; split.
    + intros [<-|(p & Hlt & Hp & Hg)].
      * exists q. rewrite Nat.sub_diag. now repeat split.
      * exists p. replace (i - pos)%nat with (S (i - S pos)) by lia.
        split; [lia|]. now split.
    + intros (p & Hle & Hp & Hg).
      destruct (Nat.eq_dec pos i) as [->|Hne]; [now left|right].
      exists p. replace (i - pos)%nat with (S (i - S pos)) in Hp by lia.
      split; [lia|]. now split.
    + intros (p & Hlt & Hp & Hg).
      exists p. replace (i - pos)%nat with (S (i - S pos)) by lia.
      split; [lia|]. now split.
    + intros (p & Hle & Hp & Hg).
      destruct (Nat.eq_dec pos i) as [->|Hne].
      * rewrite Nat.sub_diag in Hp. simpl in Hp. injection Hp as <-.
        congruence.
      * exists p. replace (i - pos)%nat with (S (i - S pos)) in Hp by lia.
        split; [lia|]. now split.
Qed.

Lemma trainable_from_all (m : store) :
  forall pos,
    forallb requires_grad m = true ->
    trainable_from pos m = seq pos (length m).
Proof.
  induction m as [|q m IH]; intros pos H; simpl in *; [reflexivity|].
  apply andb_prop in H as [Hq Hm]. rewrite Hq. f_equal. now apply IH.
Qed.

(** With the keyword spelled [dtype] and every parameter trainable, the
    commit and [perturb_parameters] with the recorded seed and scale end
    with the same parameter values. *)
Lemma commit_agrees_when_all_trainable (w : world) (s : Z) (k : R) :
  gld_seed (self w) = Some s ->
  best_scale (self w) = Some k ->
  named_parameters_to_optim (self w)
  = Some (collect_named_parameters_to_optim (model (self w))) ->
  forallb requires_grad (model (self w)) = true ->
  exists w2 w3,
    gld_update_with kw_dtype w = (Ok tt, w2)
    /\ perturb_parameters k (Some s) w = (Ok tt, w3)
    /\ model (self w2) = model (self w3).
Proof.
  intros Hs Hb Hn Hall.
  rewrite (gld_update_dtype_run w s k Hs Hb).
  rewrite (perturb_parameters_run k (Some s) w s _ eq_refl Hn).
  do 2 eexists. split; [reflexivity|]. split; [reflexivity|].
  unfold collect_named_parameters_to_optim.
  rewrite (trainable_from_all _ 0 Hall). reflexivity.
Qed.

(** ** More about one sweep: what it leaves alone, how sweeps add up *)

Lemma store_data_other (m : store) :
  forall i j d, i <> j -> nth_error (store_data m j d) i = nth_error m i.
Proof.
  induction m as [|p m IH]; intros [|i] [|j] d H; simpl;
    try reflexivity; try (now elim H).
  apply IH. intros ->. now elim H.
Qed.

Lemma add_at_other (m : store) (i j : nat) (d : tensor) :
  i <> j -> nth_error (add_at j d m) i = nth_error m i.
Proof.
  intros H. unfold add_at.
  destruct (nth_error m j); [now apply store_data_other | reflexivity].
Qed.

Lemma store_data_names (m : store) :
  forall j d,
    map name (store_data m j d) = map name m
    /\ map requires_grad (store_data m j d) = map requires_grad m.
Proof.
  induction m as [|p m IH]; intros [|j] d; simpl; try (now split).
  destruct (IH j d) as [H1 H2]. now rewrite H1, H2.
Qed.

Lemma add_at_names (m : store) (j : nat) (d : tensor) :
  map name (add_at j d m) = map name m
  /\ map requires_grad (add_at j d m) = map requires_grad m.
Proof.
  unfold add_at.
  destruct (nth_error m j); [apply store_data_names | now split].
Qed.

Lemma sweep_other (s : Z) (k : R) (idxs : list nat) :
  forall pos m i,
    ~ In i idxs ->
    nth_error (snd (sweep s k idxs pos m)) i = nth_error m i.
Proof.
  induction idxs as [|j rest IH]; intros pos m i Hi; simpl; [reflexivity|].
  assert (Hj : i <> j) by (intros ->; apply Hi; now left).
  assert (Hrest : ~ In i rest) by (intros H; apply Hi; now right).
  destruct (nth_error m j) as [p|]; rewrite IH by exact Hrest;
    [now apply add_at_other | reflexivity].
Qed.

Lemma sweep_names (s : Z) (k : R) (idxs : list nat) :
  forall pos m,
    map name (snd (sweep s k idxs pos m)) = map name m
    /\ map requires_grad (snd (sweep s k idxs pos m)) = map requires_grad m.
Proof.
  induction idxs as [|j rest IH]; intros pos m; simpl; [now split|].
  destruct (nth_error m j) as [p|]; [|apply IH].
  destruct (IH (pos + length (data p))%nat
              (add_at j (tensor_scale k (draws s pos (length (data p)))) m))
    as [H1 H2].
  destruct (add_at_names m j
              (tensor_scale k (draws s pos (length (data p))))) as [H3 H4].
  rewrite H1, H2, H3, H4. now split.
Qed.

Lemma sweep_fst (s : Z) (k : R) (idxs : list nat) :
  forall pos m,
    fst (sweep s k idxs pos m) = (pos + listed_entries (shape m) idxs)%nat.
Proof.
  induction idxs as [|j rest IH]; intros pos m; simpl; [lia|].
  unfold shape at 1. rewrite nth_error_map.
  destruct (nth_error m j) as [p|] eqn:Hp; simpl.
  - rewrite IH, add_at_shape by now apply draws_fits. lia.
  - rewrite IH. lia.
Qed.

Lemma tensor_add_zero (a v : tensor) :
  length v = length a -> tensor_add a (tensor_scale 0 v) = a.
Proof.
  revert v; induction a as [|x a IH]; intros [|y v] H; simpl in *;
    try reflexivity; try discriminate.
  f_equal; [lra | apply IH; now injection H].
Qed.

Lemma tensor_add_merge (k1 k2 : R) (a v : tensor) :
  tensor_add (tensor_add a (tensor_scale k1 v)) (tensor_scale k2 v)
  = tensor_add a (tensor_scale (k1 + k2) v).
Proof.
  revert v; induction a as [|x a IH]; intros [|y v]; simpl;
    try reflexivity.
  f_equal; [lra | apply IH].
Qed.

Lemma add_at_zero (v : tensor) (m : store) :
  forall i, fits m i v -> add_at i (tensor_scale 0 v) m = m.
Proof.
  induction m as [|p m IH]; intros [|i] H; try reflexivity.
  - unfold add_at; simpl. rewrite tensor_add_zero by now apply H.
    now destruct p.
  - rewrite add_at_cons_S. f_equal. apply IH.
    intros q Hq. now apply H.
Qed.

Lemma add_at_merge (k1 k2 : R) (v : tensor) (m : store) :
  forall i,
    add_at i (tensor_scale k2 v) (add_at i (tensor_scale k1 v) m)
    = add_at i (tensor_scale (k1 + k2) v) m.
Proof.
  induction m as [|p m IH]; intros [|i]; try reflexivity.
  - unfold add_at; simpl. now rewrite tensor_add_merge.
  - rewrite !add_at_cons_S. f_equal. apply IH.
Qed.

Lemma sweep_zero (s : Z) (idxs : list nat) :
  forall pos m, snd (sweep s 0 idxs pos m) = m.
Proof.
  induction idxs as [|i rest IH]; intros pos m; simpl; [reflexivity|].
  destruct (nth_error m i) as [p|] eqn:Hp; [|apply IH].
  rewrite add_at_zero; [apply IH|].
  intros q Hq. rewrite Hp in Hq. injection Hq as <-. apply draws_length.
Qed.

Lemma sweep_merge (s : Z) (k1 k2 : R) (idxs : list nat) :
  forall pos m,
    snd (sweep s k2 idxs pos (snd (sweep s k1 idxs pos m)))
    = snd (sweep s (k1 + k2) idxs pos m).
Proof.
  induction idxs as [|i rest IH]; intros pos m; simpl; [reflexivity|].
  destruct (nth_error m i) as [p|] eqn:Hp.
  - set (n := length (data p)). set (v := draws s pos n).
    assert (Hfit : forall k, fits m i (tensor_scale k v))
      by (intros k; now apply draws_fits).
    rewrite (sweep_add_at s k1 rest (pos + n) m i _ (Hfit k1)). simpl.
    rewrite (sweep_add_at s (k1 + k2) rest (pos + n) m i _ (Hfit (k1 + k2))).
    simpl.
    set (B := snd (sweep s k1 rest (pos + n) m)).
    assert (HB : shape B = shape m) by apply sweep_shape.
    assert (HBi : shape (add_at i (tensor_scale k1 v) B) = shape m).
    { rewrite add_at_shape; [exact HB|]. now apply (fits_shape m). }
    destruct (shape_nth_error m _ i p HBi Hp) as (p' & Hp' & Hl).
    rewrite Hp', Hl. fold n. fold v.
    rewrite add_at_merge.
    rewrite (sweep_add_at s k2 rest (pos + n) B i).
    + simpl. unfold B. now rewrite IH.
    + apply (fits_shape m); [exact HB | apply Hfit].
  - rewrite (shape_nth_error_None m _ i (sweep_shape s k1 rest pos m) Hp).
    apply IH.
Qed.

(** ** Statements that leave the parameter values alone *)

Lemma keeps_model_ret {A : Type} (a : A) : keeps_model (ret a).
Proof. intros w. reflexivity. Qed.

Lemma keeps_model_raise {A : Type} (e : exn) : keeps_model (@raise A e).
Proof. intros w. reflexivity. Qed.

Lemma keeps_model_gets {A : Type} (f : GLDTrainer -> A) : keeps_model (gets f).
Proof. intros w. reflexivity. Qed.

Lemma keeps_model_getattr {A : Type} (f : GLDTrainer -> option A) :
  keeps_model (getattr f).
Proof. intros w. unfold getattr. now destruct (f (self w)). Qed.

Lemma keeps_model_modify (f : GLDTrainer -> GLDTrainer) :
  (forall t, model (f t) = model t) -> keeps_model (modify f).
Proof. intros H w. simpl. apply H. Qed.

Lemma keeps_model_bind {A B : Type} (c : M A) (k : A -> M B) :
  keeps_model c -> (forall a, keeps_model (k a)) -> keeps_model (bind c k).
Proof.
  intros Hc Hk w. unfold bind. specialize (Hc w).
  destruct (c w) as [[a|e] w1]; simpl in *.
  - now rewrite Hk.
  - exact Hc.
Qed.

Lemma keeps_model_for_each {A : Type} (body : A -> M unit) (l : list A) :
  (forall x, keeps_model (body x)) -> keeps_model (for_each l body).
Proof.
  intros Hb. induction l as [|x l IH]; simpl.
  - apply keeps_model_ret.
  - apply keeps_model_bind; [apply Hb | intros _; exact IH].
Qed.

Lemma keeps_model_randint : keeps_model np_random_randint.
Proof. intros w. reflexivity. Qed.

Lemma keeps_model_forward (inputs : Batch) : keeps_model (gld_forward inputs).
Proof. intros w. reflexivity. Qed.

Lemma keeps_model_do_trial (inputs : Batch) (k : R) :
  keeps_model (do_trial inputs k).
Proof.
  intros w.
  destruct (named_parameters_to_optim (self w)) as [idxs|] eqn:Hn.
  - rewrite (do_trial_run inputs k w idxs Hn). reflexivity.
  - unfold do_trial. unfold bind at 1. unfold np_random_randint at 1.
    unfold bind at 1. unfold modify at 1. unfold bind at 1.
    match goal with
    | |- context [perturb_parameters k None ?w2] =>
        destruct (perturb_parameters_model_raise k None w2) as [Hr Hw];
        [left; exact Hn|];
        destruct (perturb_parameters k None w2) as [r w3]
    end.
    simpl in Hr, Hw. subst r. simpl. now rewrite Hw.
Qed.

Lemma keeps_model_gld_step (inputs : Batch) : keeps_model (gld_step inputs).
Proof.
  unfold gld_step.
  repeat first
    [ apply keeps_model_do_trial
    | apply keeps_model_randint
    | apply keeps_model_forward
    | apply keeps_model_getattr
    | apply keeps_model_gets
    | apply keeps_model_modify; intros []; reflexivity
    | apply keeps_model_for_each; intros ?
    | apply keeps_model_bind; [|intros ?] ].
  destruct (py_min trial_loss _) as [[[l' seed'] scale']|e].
  - repeat first
      [ apply keeps_model_bind; [|intros ?]
      | apply keeps_model_modify; intros []; reflexivity
      | apply keeps_model_ret ].
  - apply keeps_model_raise.
Qed.

(** ** The properties of one step *)

Lemma trials_from_scales (inputs : Batch) (m : store) (idxs : list nat)
  (mx : R) (space : list R) :
  forall np,
    map trial_scale (trials_from inputs m idxs mx np space)
    = map (fun radius => Some (trial_of_radius mx radius)) space.
Proof.
  induction space as [|radius rest IH]; intros np; simpl; [reflexivity|].
  f_equal. apply IH.
Qed.

Lemma nan_none_lt (b : trial) (rest : list trial) :
  is_nan (trial_loss b) = true -> none_lt trial_loss b rest.
Proof.
  intros Hb. apply Forall_forall. intros t _.
  destruct (trial_loss b); try discriminate. apply loss_lt_nan_r.
Qed.

(** C2: in one step (baseline first, then one trial per radius, in
    order) the winner is a trial of the set that no trial is strictly
    below and that no earlier trial is below or equal to, so it is the
    first occurrence of the minimum loss; its loss is returned and its
    seed and scale are recorded. For the losses 0.9 (baseline), 1.2, 0.5,
    0.5 the third trial wins, and the baseline wins whenever no perturbed
    trial is strictly below it. *)
Theorem gld_step_selects_first_minimum (inputs : Batch) (w : world)
  (idxs : list nat) :
  named_parameters_to_optim (self w) = Some idxs ->
  exists (l : loss) (w' : world) (win : trial) (before after : list trial),
    gld_step inputs w = (Ok l, w')
    /\ l = trial_loss win
    /\ gld_seed (self w') = Some (trial_seed win)
    /\ best_scale (self w') = trial_scale win
    /\ losses (self w') = before ++ win :: after
    /\ map trial_scale (losses (self w'))
       = None :: map (fun radius =>
                        Some (trial_of_radius (max_radius (self w)) radius))
                     (search_space (self w))
    /\ none_le trial_loss win before
    /\ none_lt trial_loss win after
    /\ (forall b rest, losses (self w') = b :: rest ->
          none_lt trial_loss b rest -> win = b)
    /\ (forall (s0 s1 s2 s3 : Z) (k1 k2 k3 : R),
          py_min trial_loss
            [(f0_9, s0, None); (f1_2, s1, Some k1);
             (f0_5, s2, Some k2); (f0_5, s3, Some k3)]
          = Ok (f0_5, s2, Some k2)).
Proof.
  intros Hn. destruct (gld_step_run inputs w idxs Hn) as (tr & E).
  set (b := baseline_trial inputs w) in *.
  set (ts := step_trials inputs w idxs) in *.
  set (win := step_winner inputs w idxs) in *.
  destruct (min_scan_split trial_loss ts [] b []) as (bf & af & Hsplit & H1 & H2);
    [constructor|constructor|].
  exists (trial_loss win), (stepped w (b :: ts) win tr), win, bf, af.
  simpl in Hsplit.
  repeat split; try exact E; try assumption.
  - simpl. f_equal. apply trials_from_scales.
  - intros b' rest Hl Hlt. simpl in Hl.
    injection Hl as <- <-. now apply min_scan_keeps_best.
Qed.

(** C3: [perturb_parameters] with [(scale = k, seed = s)] and then with
    [(scale = -k, seed = s)] gives every parameter its value back: both
    calls reset the stream to [s], make the same draws in the same order
    and end at the same stream position. *)
Theorem perturb_round_trip (k : R) (s : Z) (w : world) (idxs : list nat) :
  named_parameters_to_optim (self w) = Some idxs ->
  exists w1 w2,
    perturb_parameters k (Some s) w = (Ok tt, w1)
    /\ model (self w1) = snd (sweep s k idxs 0 (model (self w)))
    /\ perturb_parameters (- k) (Some s) w1 = (Ok tt, w2)
    /\ model (self w2) = model (self w)
    /\ self w2 = self w
    /\ torch_rng w2 = torch_rng w1.
Proof.
  intros Hn. replace (- k) with (-1 * k) by ring.
  rewrite (perturb_parameters_run k (Some s) w s idxs eq_refl Hn).
  eexists. eexists. split; [reflexivity|]. split; [reflexivity|].
  rewrite (perturb_parameters_run (-1 * k) (Some s) _ s idxs eq_refl);
    [|destruct w as [[] ? ?]; exact Hn].
  split; [reflexivity|].
  simpl model at 1. simpl.
  rewrite sweep_undo. simpl.
  destruct w as [[] ? ?]. repeat split.
Qed.

(** C5: when the step recorded no scale (the baseline won), the commit
    returns normally, leaves every parameter unchanged and advances the
    learning-rate schedule by one. *)
Theorem baseline_commit_changes_nothing (inputs : Batch) (w : world)
  (idxs : list nat) (l : loss) (w1 : world) :
  named_parameters_to_optim (self w) = Some idxs ->
  gld_step inputs w = (Ok l, w1) ->
  best_scale (self w1) = None ->
  exists w2,
    gld_update w1 = (Ok tt, w2)
    /\ model (self w2) = model (self w1)
    /\ model (self w2) = model (self w)
    /\ lr_scheduler (self w2) = S (lr_scheduler (self w1)).
Proof.
  intros Hn E Hb.
  destruct (gld_step_run inputs w idxs Hn) as (tr & E').
  rewrite E' in E. injection E as _ <-.
  unfold gld_update.
  erewrite gld_update_baseline; [|reflexivity|exact Hb].
  eexists. split; [reflexivity|].
  destruct w as [[] ? ?]. repeat split.
Qed.

(** C7, as the code has it: a commit before any step stops with
    [AttributeError] ([gld_seed] is not assigned yet) and changes
    nothing; but no commit checks or clears the recorded winner, so after
    a step that the baseline won two commits in a row both return
    normally: the winner is still recorded, no parameter has changed and
    the schedule has advanced twice. *)
Theorem gld_update_pairing_unchecked (inputs : Batch) (w : world)
  (idxs : list nat) (l : loss) (w1 : world) :
  named_parameters_to_optim (self w) = Some idxs ->
  gld_step inputs w = (Ok l, w1) ->
  best_scale (self w1) = None ->
  (exists w2 w3,
     gld_update w1 = (Ok tt, w2)
     /\ gld_update w2 = (Ok tt, w3)
     /\ gld_seed (self w3) = gld_seed (self w1)
     /\ best_scale (self w3) = None
     /\ model (self w3) = model (self w1)
     /\ lr_scheduler (self w3) = S (S (lr_scheduler (self w1))))
  /\ (forall u mn mx n m t tr np,
        __init__ u mn mx n m = Ok t ->
        gld_update {| self := t; torch_rng := tr; numpy_pos := np |}
        = (Raise AttributeError,
           {| self := t; torch_rng := tr; numpy_pos := np |})).
Proof.
  intros Hn E Hb. split.
  - destruct (gld_step_run inputs w idxs Hn) as (tr & E').
    rewrite E' in E. injection E as _ <-.
    unfold gld_update.
    erewrite gld_update_baseline; [|reflexivity|exact Hb].
    eexists. eexists. split; [reflexivity|].
    erewrite gld_update_baseline; [|reflexivity|exact Hb].
    split; [reflexivity|]. repeat split. exact Hb.
  - intros u mn mx n m t tr np Ht. apply gld_update_unset.
    unfold __init__ in Ht.
    destruct (py_truediv mx mn) as [q|]; [|discriminate].
    simpl in Ht. destruct (math_log q) as [lr|]; [|discriminate].
    simpl in Ht. destruct (np_linspace 0 lr n) as [sp|]; [|discriminate].
    simpl in Ht. injection Ht as <-. reflexivity.
Qed.

(** C9, as the code has it: the selection compares losses with the
    plain [<] of numbers and nothing else. When the baseline loss is NaN
    (so in particular when all losses are NaN), or when no perturbed
    trial's loss is strictly below the baseline's, the baseline is the
    trial selected: its loss is returned, its seed is recorded and no
    scale is recorded. *)
Theorem nan_baseline_is_selected (inputs : Batch) (w : world)
  (idxs : list nat) (l : loss) (w1 : world) (b : trial) (rest : list trial) :
  named_parameters_to_optim (self w) = Some idxs ->
  gld_step inputs w = (Ok l, w1) ->
  losses (self w1) = b :: rest ->
  is_nan (trial_loss b) = true \/ none_lt trial_loss b rest ->
  trial_loss b = compute_loss (model (self w)) inputs
  /\ trial_scale b = None
  /\ l = trial_loss b
  /\ gld_seed (self w1) = Some (trial_seed b)
  /\ best_scale (self w1) = None.
Proof.
  intros Hn E Hl Hnan.
  destruct (gld_step_run inputs w idxs Hn) as (tr & E').
  rewrite E' in E. injection E as <- <-.
  simpl in Hl. injection Hl as <- <-.
  assert (Hlt : none_lt trial_loss (baseline_trial inputs w)
                  (step_trials inputs w idxs)).
  { destruct Hnan as [H|H]; [now apply nan_none_lt | exact H]. }
  unfold step_winner. rewrite (min_scan_keeps_best _ _ _ Hlt).
  repeat split.
Qed.

Lemma trial_of_radius_0 (mx : R) : trial_of_radius mx 0 = mx.
Proof.
  unfold trial_of_radius. replace (-1 * 0) with 0 by ring.
  rewrite Rpower_O by lra. ring.
Qed.

Lemma init_fields (u : bool) (mn mx : R) (n : Z) (m : store) (t : GLDTrainer) :
  __init__ u mn mx n m = Ok t ->
  exists lr,
    math_log (mx / mn) = Ok lr
    /\ mn <> 0
    /\ np_linspace 0 lr n = Ok (search_space t)
    /\ max_radius t = mx /\ min_radius t = mn /\ log_radius t = lr
    /\ best_scale t = None /\ gld_seed t = None /\ model t = m.
Proof.
  unfold __init__, py_truediv. intros Ht.
  destruct (Req_dec_T mn 0) as [|Hmn]; [discriminate|]. simpl in Ht.
  destruct (math_log (mx / mn)) as [lr|]; [|discriminate]. simpl in Ht.
  destruct (np_linspace 0 lr n) as [sp|] eqn:Hsp; [|discriminate].
  simpl in Ht. injection Ht as <-. exists lr. simpl.
  split; [reflexivity|]. split; [exact Hmn|]. split; [exact Hsp|].
  repeat split.
Qed.

(** C10: with [num_ball_samples = 1] the search space is the single
    value 0, whatever the radii; a step then evaluates the baseline and
    exactly one perturbed trial, whose scale is [max_radius]. *)
Theorem single_sample_search_space (u : bool) (mn mx : R) (m : store)
  (t : GLDTrainer) :
  __init__ u mn mx 1 m = Ok t ->
  search_space t = [0]
  /\ max_radius t = mx
  /\ map (trial_of_radius (max_radius t)) (search_space t) = [mx]
  /\ (forall (inputs : Batch) (w : world) (idxs : list nat),
        search_space (self w) = search_space t ->
        max_radius (self w) = max_radius t ->
        named_parameters_to_optim (self w) = Some idxs ->
        exists l w' b tl,
          gld_step inputs w = (Ok l, w')
          /\ losses (self w') = [b; tl]
          /\ trial_scale b = None
          /\ trial_scale tl = Some mx).
Proof.
  intros Ht.
  destruct (init_fields _ _ _ _ _ _ Ht) as (lr & _ & _ & Hsp & Hmx & _).
  assert (Hspace : search_space t = [0]).
  { unfold np_linspace in Hsp. simpl in Hsp. injection Hsp as <-.
    change (Pos.to_nat 1) with 1%nat. unfold linspace_samples. simpl.
    f_equal. ring. }
  rewrite Hspace, Hmx. simpl. rewrite trial_of_radius_0.
  repeat split.
  intros inputs w idxs Hs Hm Hn.
  destruct (gld_step_run inputs w idxs Hn) as (tr & E).
  rewrite E. do 4 eexists. split; [reflexivity|].
  simpl. unfold step_trials. rewrite Hs, Hm. simpl.
  rewrite trial_of_radius_0. repeat split.
Qed.

(** ** Further properties of the stepping code *)

(** X1: the list built at lines 219-222 holds a position exactly when
    the parameter there has [requires_grad]; it is in model order, each
    position once. *)
Theorem named_parameters_to_optim_exact (m : store) :
  (forall i,
     In i (collect_named_parameters_to_optim m)
     <-> exists p, nth_error m i = Some p /\ requires_grad p = true)
  /\ StronglySorted lt (collect_named_parameters_to_optim m)
  /\ NoDup (collect_named_parameters_to_optim m)
  /\ (length (collect_named_parameters_to_optim m)
      = length (filter requires_grad m)).
Proof.
  assert (Hsorted : forall m' pos,
            StronglySorted lt (trainable_from pos m')
            /\ Forall (fun i => (pos <= i)%nat) (trainable_from pos m')).
  { induction m' as [|q m' IH]; intros pos; simpl.
    - split; constructor.
    - destruct (IH (S pos)) as [Hs Hge].
      assert (Hge' : Forall (fun i => (pos <= i)%nat)
                       (trainable_from (S pos) m'))
        by (eapply Forall_impl; [|exact Hge]; cbv beta; intros; lia).
      destruct (requires_grad q).
      + split.
        * constructor; [exact Hs|].
          eapply Forall_impl; [|exact Hge]. cbv beta. intros; lia.
        * constructor; [lia | exact Hge'].
      + now split. }
  split; [|split; [|split]].
  - intros i. unfold collect_named_parameters_to_optim.
    rewrite trainable_from_In. rewrite Nat.sub_0_r.
    split; intros (p & H); exists p; [tauto|].
    split; [lia | exact H].
  - apply Hsorted.
  - unfold collect_named_parameters_to_optim.
    destruct (Hsorted m 0%nat) as [Hs _].
    clear Hsorted. induction Hs as [|a l Hs IH Hall]; constructor.
    + intros Hin. rewrite Forall_forall in Hall.
      specialize (Hall a Hin). lia.
    + exact IH.
  - unfold collect_named_parameters_to_optim. generalize 0%nat.
    induction m as [|q m IH]; intros pos; simpl; [reflexivity|].
    destruct (requires_grad q); simpl; now rewrite IH.
Qed.

(** X2: a call of [perturb_parameters] changes the values of the listed
    parameters and torch's generator, and nothing else: no name, no
    [requires_grad] flag, no size, no parameter that is not listed, no
    other attribute of the trainer, not numpy's generator. With the list
    of lines 219-222, every frozen parameter is left exactly as it is. *)
Theorem perturb_parameters_frame (k : R) (seed : option Z) (w : world)
  (s : Z) (idxs : list nat) :
  resolve_seed seed w = Some s ->
  named_parameters_to_optim (self w) = Some idxs ->
  exists w',
    perturb_parameters k seed w = (Ok tt, w')
    /\ map name (model (self w')) = map name (model (self w))
    /\ map requires_grad (model (self w'))
       = map requires_grad (model (self w))
    /\ shape (model (self w')) = shape (model (self w))
    /\ (forall i, ~ In i idxs ->
          nth_error (model (self w')) i = nth_error (model (self w)) i)
    /\ (idxs = collect_named_parameters_to_optim (model (self w)) ->
        forall i p, nth_error (model (self w)) i = Some p ->
                    requires_grad p = false ->
                    nth_error (model (self w')) i = Some p)
    /\ self w' = with_model (model (self w')) (self w)
    /\ numpy_pos w' = numpy_pos w.
Proof.
  intros Hs Hn. rewrite (perturb_parameters_run k seed w s idxs Hs Hn).
  eexists. split; [reflexivity|]. simpl.
  destruct (sweep_names s k idxs 0 (model (self w))) as [H1 H2].
  split; [exact H1|]. split; [exact H2|].
  split; [apply sweep_shape|]. split; [intros i; apply sweep_other|].
  split; [|split; reflexivity].
  intros -> i p Hp Hg. rewrite sweep_other; [exact Hp|].
  intros Hin. unfold collect_named_parameters_to_optim in Hin.
  apply trainable_from_In in Hin. rewrite Nat.sub_0_r in Hin.
  destruct Hin as (q & _ & Hq & Hgq). congruence.
Qed.

(** X3: perturbations from one seed add up: scale [k1] and then scale
    [k2] end with the parameter values of the single scale [k1 + k2],
    and scale 0 changes no value. *)
Theorem perturb_parameters_additive (k1 k2 : R) (s : Z) (w : world)
  (idxs : list nat) :
  named_parameters_to_optim (self w) = Some idxs ->
  exists w1 w2 w3 w0,
    perturb_parameters k1 (Some s) w = (Ok tt, w1)
    /\ perturb_parameters k2 (Some s) w1 = (Ok tt, w2)
    /\ perturb_parameters (k1 + k2) (Some s) w = (Ok tt, w3)
    /\ w2 = w3
    /\ perturb_parameters 0 (Some s) w = (Ok tt, w0)
    /\ model (self w0) = model (self w).
Proof.
  intros Hn.
  rewrite (perturb_parameters_run k1 (Some s) w s idxs eq_refl Hn).
  rewrite (perturb_parameters_run (k1 + k2) (Some s) w s idxs eq_refl Hn).
  rewrite (perturb_parameters_run 0 (Some s) w s idxs eq_refl Hn).
  do 4 eexists. split; [reflexivity|].
  rewrite (perturb_parameters_run k2 (Some s) _ s idxs eq_refl);
    [|destruct w as [[] ? ?]; exact Hn].
  split; [reflexivity|]. split; [reflexivity|].
  split.
  - unfold swept. simpl. rewrite sweep_merge.
    rewrite !sweep_fst, sweep_shape.
    destruct w as [[] ? ?]. reflexivity.
  - split; [reflexivity|]. simpl. apply sweep_zero.
Qed.

(** X4: [perturb_parameters] with an explicit seed does not depend on
    the state of torch's global generator: it resets it. Afterwards the
    generator has that seed and has handed out one sample per entry of
    the listed parameters. *)
Theorem perturb_parameters_resets_generator (k : R) (s : Z) (w : world)
  (g : TorchRng) :
  perturb_parameters k (Some s) (with_torch_rng g w)
  = perturb_parameters k (Some s) w
  /\ (forall idxs,
        named_parameters_to_optim (self w) = Some idxs ->
        torch_rng (snd (perturb_parameters k (Some s) w))
        = {| rng_seed := s;
             rng_pos := listed_entries (shape (model (self w))) idxs |}).
Proof.
  split.
  - destruct (named_parameters_to_optim (self w)) as [idxs|] eqn:Hn.
    + rewrite (perturb_parameters_run k (Some s) w s idxs eq_refl Hn).
      rewrite (perturb_parameters_run k (Some s) _ s idxs eq_refl);
        [reflexivity | exact Hn].
    + unfold perturb_parameters.
      cbv [bind ret getattr torch_manual_seed with_torch_rng]. simpl.
      rewrite Hn. reflexivity.
  - intros idxs Hn.
    rewrite (perturb_parameters_run k (Some s) w s idxs eq_refl Hn).
    simpl. now rewrite sweep_fst.
Qed.

Lemma trial_body_run (inputs : Batch) (radius : R) (w : world)
  (idxs : list nat) :
  named_parameters_to_optim (self w) = Some idxs ->
  let s := randint_stream (numpy_pos w) in
  let k := trial_of_radius (max_radius (self w)) radius in
  let r := sweep s k idxs 0 (model (self w)) in
  trial_body inputs radius w
  = (Ok tt,
     with_self
       (fun t => with_losses
                   (losses t ++ [(compute_loss (snd r) inputs, s, Some k)]) t)
       (tried w s (fst r))).
Proof.
  intros Hn s k r. unfold trial_body.
  unfold bind at 1. unfold gets at 1.
  unfold bind at 1. rewrite (do_trial_run inputs _ w idxs Hn).
  reflexivity.
Qed.

Lemma trials_loop_rng (inputs : Batch) (idxs : list nat) (space : list R) :
  forall w,
    named_parameters_to_optim (self w) = Some idxs ->
    torch_rng (snd (for_each space (trial_body inputs) w))
    = match space with
      | [] => torch_rng w
      | _ :: _ =>
          {| rng_seed := randint_stream (numpy_pos w + length space - 1);
             rng_pos := listed_entries (shape (model (self w))) idxs |}
      end.
Proof.
  induction space as [|radius rest IH]; intros w Hn; [reflexivity|].
  cbn [for_each]. unfold bind at 1.
  rewrite (trial_body_run inputs radius w idxs Hn).
  destruct rest as [|r2 rest].
  - simpl. rewrite sweep_fst. simpl.
    now rewrite Nat.add_sub.
  - rewrite IH by exact Hn. cbn [length]. simpl.
    f_equal. f_equal. lia.
Qed.

Lemma gld_step_run_explicit (inputs : Batch) (w : world) (idxs : list nat) :
  named_parameters_to_optim (self w) = Some idxs ->
  gld_step inputs w
  = (Ok (trial_loss (step_winner inputs w idxs)),
     stepped w (baseline_trial inputs w :: step_trials inputs w idxs)
       (step_winner inputs w idxs) (step_rng w idxs)).
Proof.
  intros Hn. destruct (gld_step_run inputs w idxs Hn) as (tr & E).
  rewrite E. f_equal. f_equal.
  assert (Ht : torch_rng (snd (gld_step inputs w)) = step_rng w idxs).
  { clear E tr. unfold gld_step.
    change (fun radius : R => _) with (trial_body inputs).
    unfold bind at 1. unfold modify at 1.
    unfold bind at 1. unfold np_random_randint at 1.
    unfold bind at 1. unfold modify at 1.
    unfold bind at 1. unfold gld_forward at 1.
    unfold bind at 1. unfold getattr at 1. simpl gld_seed. cbv iota.
    unfold bind at 1. unfold modify at 1.
    unfold bind at 1. unfold gets at 1.
    unfold bind at 1.
    match goal with
    | |- context [for_each ?sp _ ?w1] =>
        pose proof (trials_loop_rng inputs idxs sp w1 Hn) as Hr;
        destruct (trials_loop_run inputs idxs sp w1 Hn) as (g & tr & E)
    end.
    simpl in E, Hr. simpl. rewrite E in Hr. rewrite E.
    simpl in Hr. unfold bind at 1. unfold gets at 1. simpl.
    destruct (min_scan _ _ _) as [[l' seed'] scale'].
    cbv [bind modify ret]. simpl. rewrite Hr.
    unfold step_rng. destruct (search_space (self w)); [reflexivity|].
    simpl. f_equal. f_equal. lia. }
  rewrite E in Ht. exact Ht.
Qed.

Lemma trials_from_In (inputs : Batch) (m : store) (idxs : list nat) (mx : R)
  (space : list R) (t : trial) :
  forall np,
    In t (trials_from inputs m idxs mx np space) ->
    exists s k,
      t = (compute_loss (snd (sweep s k idxs 0 m)) inputs, s, Some k).
Proof.
  induction space as [|radius rest IH]; intros np; simpl; [intros []|].
  intros [<-|H]; [now eexists; eexists | now apply (IH (S np))].
Qed.




Lemma gld_step_empty_run (inputs : Batch) (w : world) :
  search_space (self w) = [] ->
  gld_step inputs w
  = (Ok (trial_loss (baseline_trial inputs w)),
     stepped w [baseline_trial inputs w] (baseline_trial inputs w)
       (torch_rng w)).
Proof.
  intros Hs. unfold gld_step.
  cbv [bind modify np_random_randint gld_forward getattr gets]. simpl.
  rewrite Hs. simpl. unfold stepped. rewrite Hs.
  destruct w as [[] ? ?]. simpl. rewrite Nat.add_0_r. reflexivity.
Qed.

Lemma gld_step_unset_run (inputs : Batch) (w : world) (radius : R)
  (rest : list R) :
  named_parameters_to_optim (self w) = None ->
  search_space (self w) = radius :: rest ->
  gld_step inputs w
  = (Raise AttributeError,
     {| self := with_gld_seed (Some (randint_stream (S (numpy_pos w))))
                  (with_losses [baseline_trial inputs w] (self w));
        torch_rng := {| rng_seed := randint_stream (S (numpy_pos w));
                        rng_pos := 0 |};
        numpy_pos := S (S (numpy_pos w)) |}).
Proof.
  intros Hn Hs. unfold gld_step.
  cbv [bind modify np_random_randint gld_forward getattr gets]. simpl.
  rewrite Hs. cbn [for_each].
  cbv [bind modify np_random_randint gld_forward getattr gets do_trial
       perturb_parameters torch_manual_seed ret]. simpl.
  rewrite Hn. unfold baseline_trial.
  destruct w as [[] ? ?]. reflexivity.
Qed.


Lemma min_scan_improves {A : Type} (key : A -> loss) (rest : list A) :
  forall best,
    min_scan key best rest = best
    \/ loss_lt (key (min_scan key best rest)) (key best) = true.
Proof.
  induction rest as [|x rest IH]; intros best; simpl; [now left|].
  destruct (loss_lt (key x) (key best)) eqn:E; [|apply IH].
  right. destruct (IH x) as [->|H]; [exact E|].
  eapply loss_le_lt_trans; [apply loss_lt_le; exact H | exact E].
Qed.

Lemma min_scan_member {A : Type} (key : A -> loss) (rest : list A) :
  forall best, In (min_scan key best rest) (best :: rest).
Proof.
  induction rest as [|x rest IH]; intros best; simpl; [now left|].
  destruct (loss_lt (key x) (key best)).
  - right. apply IH.
  - destruct (IH best) as [H|H]; [now left | now right; right].
Qed.

(** X19: a step never records a perturbation that did not pay on the
    batch. If it records a scale, the loss it returns is strictly below
    the loss of the unperturbed parameters; if it records none, it
    returns the unperturbed loss itself. *)
Theorem gld_step_descends (inputs : Batch) (w : world) (idxs : list nat)
  (l : loss) (w1 : world) :
  named_parameters_to_optim (self w) = Some idxs ->
  gld_step inputs w = (Ok l, w1) ->
  match best_scale (self w1) with
  | Some _ => loss_lt l (compute_loss (model (self w)) inputs) = true
  | None => l = compute_loss (model (self w)) inputs
  end
  /\ loss_lt (compute_loss (model (self w)) inputs) l = false.
Proof.
  intros Hn E. rewrite (gld_step_run_explicit inputs w idxs Hn) in E.
  injection E as <- <-. simpl. unfold step_winner.
  set (b := baseline_trial inputs w). set (ts := step_trials inputs w idxs).
  assert (Hb : trial_loss b = compute_loss (model (self w)) inputs)
    by reflexivity.
  rewrite <- Hb.
  destruct (min_scan_improves trial_loss ts b) as [Heq|Hlt].
  - rewrite Heq. split; [reflexivity|].
    destruct (loss_lt (trial_loss b) (trial_loss b)) eqn:Hbb;
      [|reflexivity].
    apply loss_lt_not_ge in Hbb as Hge. apply loss_lt_le in Hbb. congruence.
  - split.
    + destruct (trial_scale (min_scan trial_loss b ts)) eqn:Hsc;
        [exact Hlt|].
      destruct (min_scan_member trial_loss ts b) as [<-|Hin].
      * apply loss_lt_not_ge in Hlt as Hge. apply loss_lt_le in Hlt.
        congruence.
      * assert (Hex : exists s k,
                  min_scan trial_loss b ts
                  = (compute_loss
                       (snd (sweep s k idxs 0 (model (self w)))) inputs,
                     s, Some k))
          by (eapply trials_from_In; exact Hin).
        destruct Hex as (s & k & Hex). rewrite Hex in Hsc. discriminate.
    + apply loss_lt_not_ge in Hlt.
      destruct (loss_lt (trial_loss b) (trial_loss (min_scan trial_loss b ts)))
        eqn:Hx; [|reflexivity].
      apply loss_lt_le in Hx. congruence.
Qed.

(** ** The stepping code in full *)

Lemma gld_forward_full_returns (inputs : Batch) (w : world) :
  forward_error (model (self w)) inputs = None ->
  gld_forward_full inputs w = gld_forward inputs w.
Proof. intros H. unfold gld_forward_full. now rewrite H. Qed.

(** One trial inside the training loop: it returns when the forward
    pass on the perturbed values does, and is otherwise left where the
    forward pass raised. *)
Lemma do_trial_full_run (inputs : Batch) (k : R) (w : world)
  (idxs : list nat) :
  named_parameters_to_optim (self w) = Some idxs ->
  let s := randint_stream (numpy_pos w) in
  let r := sweep s k idxs 0 (model (self w)) in
  do_trial_full inputs k w
  = match forward_error (snd r) inputs with
    | None => (Ok (compute_loss (snd r) inputs, s, Some k), tried w s (fst r))
    | Some e => (Raise e, interrupted w s r)
    end.
Proof.
  intros Hn s r. unfold do_trial_full.
  unfold bind at 1. unfold np_random_randint at 1.
  unfold bind at 1. unfold modify at 1.
  unfold bind at 1.
  rewrite (perturb_parameters_run k None _ s idxs);
    [|reflexivity|exact Hn].
  unfold bind at 1. unfold gld_forward_full at 1.
  cbn [swept self model with_model with_self with_gld_seed snd].
  fold s. fold r.
  destruct (forward_error (snd r) inputs) as [e|].
  - unfold interrupted. destruct w as [[] ? ?]. reflexivity.
  - unfold bind at 1.
    rewrite (perturb_parameters_run (-1 * k) None _ s idxs);
      [|reflexivity|exact Hn].
    cbv [bind getattr ret]. simpl.
    unfold r. rewrite sweep_undo. fold r. simpl.
    unfold tried. destruct w as [[] ? ?]. reflexivity.
Qed.

(** Outside the training loop a trial stops at its first call of
    [perturb_parameters], before any parameter is touched. *)
Lemma do_trial_full_unset (inputs : Batch) (k : R) (w : world) :
  named_parameters_to_optim (self w) = None ->
  do_trial_full inputs k w = do_trial inputs k w
  /\ fst (do_trial_full inputs k w) = Raise AttributeError
  /\ model (self (snd (do_trial_full inputs k w))) = model (self w).
Proof.
  intros Hn. unfold do_trial_full, do_trial.
  cbv [bind modify np_random_randint perturb_parameters getattr
       torch_manual_seed ret].
  simpl. rewrite Hn. simpl. repeat split.
Qed.

Lemma trial_body_full_run (inputs : Batch) (radius : R) (w : world)
  (idxs : list nat) :
  named_parameters_to_optim (self w) = Some idxs ->
  let s := randint_stream (numpy_pos w) in
  let k := trial_of_radius (max_radius (self w)) radius in
  let r := sweep s k idxs 0 (model (self w)) in
  trial_body_full inputs radius w
  = match forward_error (snd r) inputs with
    | None => trial_body inputs radius w
    | Some e => (Raise e, interrupted w s r)
    end.
Proof.
  intros Hn s k r.
  rewrite (trial_body_run inputs radius w idxs Hn).
  unfold trial_body_full.
  unfold bind at 1. unfold gets at 1.
  unfold bind at 1. rewrite (do_trial_full_run inputs _ w idxs Hn).
  fold s. fold k. fold r.
  now destruct (forward_error (snd r) inputs).
Qed.

Lemma first_failure_raises (inputs : Batch) (m : store) (idxs : list nat)
  (mx : R) (space : list R) (e : exn) (m' : store) :
  forall np,
    first_failure inputs m idxs mx np space = Some (e, m') ->
    forward_error m' inputs = Some e.
Proof.
  induction space as [|radius rest IH]; intros np; simpl; [discriminate|].
  destruct (forward_error (snd (sweep _ _ idxs 0 m)) inputs) as [e0|] eqn:He.
  - intros H. injection H as <- <-. exact He.
  - apply IH.
Qed.

Lemma first_failure_none (inputs : Batch) (m : store) (idxs : list nat)
  (mx : R) (space : list R) :
  (forall m', forward_error m' inputs = None) ->
  forall np, first_failure inputs m idxs mx np space = None.
Proof.
  intros H. induction space as [|radius rest IH]; intros np; simpl;
    [reflexivity|].
  rewrite H. apply IH.
Qed.

(** The trial loop in full: up to the first forward pass that raises it
    is the loop of [trial_body]; there it stops, with the parameters at
    the perturbed values of that trial. *)
Lemma trials_loop_full_run (inputs : Batch) (idxs : list nat)
  (space : list R) :
  forall w,
    named_parameters_to_optim (self w) = Some idxs ->
    match first_failure inputs (model (self w)) idxs (max_radius (self w))
            (numpy_pos w) space with
    | None =>
        for_each space (trial_body_full inputs) w
        = for_each space (trial_body inputs) w
    | Some (e, m') =>
        exists w',
          for_each space (trial_body_full inputs) w = (Raise e, w')
          /\ model (self w') = m'
    end.
Proof.
  induction space as [|radius rest IH]; intros w Hn; [reflexivity|].
  cbn [first_failure for_each].
  pose proof (trial_body_full_run inputs radius w idxs Hn) as Hfull.
  pose proof (trial_body_run inputs radius w idxs Hn) as Hold.
  cbv zeta in Hfull, Hold.
  destruct (forward_error _ inputs) as [e|].
  - eexists. unfold bind at 1. rewrite Hfull. split; reflexivity.
  - rewrite Hold in Hfull.
    match type of Hold with _ = (Ok tt, ?w1) =>
      specialize (IH w1); simpl in IH; specialize (IH Hn)
    end.
    destruct (first_failure inputs _ idxs _ _ rest) as [[e m']|].
    + destruct IH as (w' & E & Hm). exists w'.
      unfold bind at 1. rewrite Hfull. split; [exact E | exact Hm].
    + unfold bind. rewrite Hfull, Hold. exact IH.
Qed.

(** A step is its first lines, the trial loop and the selection. *)
Lemma gld_step_entry (inputs : Batch) (w : world) :
  gld_step inputs w
  = (for_each (search_space (self w)) (trial_body inputs) ;; select_lowest)
      (step_entry inputs w).
Proof.
  unfold gld_step, select_lowest.
  change (fun radius : R => _) with (trial_body inputs).
  cbv [bind modify np_random_randint gld_forward getattr gets]. simpl.
  unfold step_entry, baseline_trial.
  destruct w as [[] ? ?]. reflexivity.
Qed.

Lemma gld_step_full_entry (inputs : Batch) (w : world) :
  forward_error (model (self w)) inputs = None ->
  gld_step_full inputs w
  = (for_each (search_space (self w)) (trial_body_full inputs)
     ;; select_lowest) (step_entry inputs w).
Proof.
  intros He. unfold gld_step_full, select_lowest.
  change (fun radius : R => _) with (trial_body_full inputs).
  cbv [bind modify np_random_randint gld_forward_full getattr gets]. simpl.
  rewrite He. simpl.
  unfold step_entry, baseline_trial.
  destruct w as [[] ? ?]. reflexivity.
Qed.

(** The baseline forward pass raises: the step stops there, with an
    empty trial list and the parameters untouched. *)
Lemma gld_step_full_baseline_raises (inputs : Batch) (w : world) (e : exn) :
  forward_error (model (self w)) inputs = Some e ->
  gld_step_full inputs w
  = (Raise e,
     {| self := with_gld_seed (Some (randint_stream (numpy_pos w)))
                  (with_losses [] (self w));
        torch_rng := torch_rng w;
        numpy_pos := S (numpy_pos w) |}).
Proof.
  intros He. unfold gld_step_full.
  cbv [bind modify np_random_randint gld_forward_full]. simpl.
  rewrite He. reflexivity.
Qed.

(** Inside the training loop, after a baseline forward pass that
    returns: the step in full is the step of [gld_step] unless the
    forward pass of a trial raises, and then it stops in that trial. *)
Lemma gld_step_full_run (inputs : Batch) (w : world) (idxs : list nat) :
  named_parameters_to_optim (self w) = Some idxs ->
  forward_error (model (self w)) inputs = None ->
  match first_failure inputs (model (self w)) idxs (max_radius (self w))
          (S (numpy_pos w)) (search_space (self w)) with
  | None => gld_step_full inputs w = gld_step inputs w
  | Some (e, m') =>
      exists w',
        gld_step_full inputs w = (Raise e, w') /\ model (self w') = m'
  end.
Proof.
  intros Hn He.
  rewrite (gld_step_full_entry inputs w He), gld_step_entry.
  pose proof (trials_loop_full_run inputs idxs (search_space (self w))
                (step_entry inputs w)) as Hloop.
  simpl in Hloop. specialize (Hloop Hn).
  destruct (first_failure inputs _ idxs _ _ _) as [[e m']|].
  - destruct Hloop as (w' & E & Hm). exists w'.
    unfold bind at 1. rewrite E. split; [reflexivity | exact Hm].
  - unfold bind. now rewrite Hloop.
Qed.

(** Outside the training loop the forward pass of a trial is never
    reached. *)
Lemma gld_step_full_outside (inputs : Batch) (w : world) :
  named_parameters_to_optim (self w) = None ->
  forward_error (model (self w)) inputs = None ->
  gld_step_full inputs w = gld_step inputs w.
Proof.
  intros Hn He.
  rewrite (gld_step_full_entry inputs w He), gld_step_entry.
  destruct (search_space (self w)) as [|radius rest]; [reflexivity|].
  cbn [for_each]. unfold trial_body_full at 1. unfold trial_body at 1.
  unfold bind, gets.
  destruct (do_trial_full_unset inputs
              (trial_of_radius (max_radius (self (step_entry inputs w)))
                 radius)
              (step_entry inputs w) Hn) as (E & Hr & _).
  rewrite E in *.
  destruct (do_trial inputs _ (step_entry inputs w)) as [[t|e] w1];
    [discriminate | reflexivity].
Qed.

(** When no forward pass on the batch raises, the step in full is the
    step of [gld_step]: what is proved of the one holds of the other. *)
Lemma gld_step_full_returning (inputs : Batch) (w : world) :
  (forall m, forward_error m inputs = None) ->
  gld_step_full inputs w = gld_step inputs w.
Proof.
  intros H.
  destruct (named_parameters_to_optim (self w)) as [idxs|] eqn:Hn.
  - pose proof (gld_step_full_run inputs w idxs Hn (H _)) as E.
    now rewrite first_failure_none in E.
  - now apply gld_step_full_outside.
Qed.

(** A step in full ends with the parameter values it started from,
    unless it stops in the forward pass of a trial. *)
Lemma gld_step_full_model (inputs : Batch) (w : world) :
  model (self (snd (gld_step_full inputs w))) = model (self w)
  \/ exists e,
       fst (gld_step_full inputs w) = Raise e
       /\ forward_error (model (self (snd (gld_step_full inputs w)))) inputs
          = Some e.
Proof.
  destruct (forward_error (model (self w)) inputs) as [e|] eqn:He.
  { left. now rewrite (gld_step_full_baseline_raises inputs w e He). }
  destruct (named_parameters_to_optim (self w)) as [idxs|] eqn:Hn.
  2:{ left. rewrite (gld_step_full_outside inputs w Hn He).
      apply keeps_model_gld_step. }
  pose proof (gld_step_full_run inputs w idxs Hn He) as E.
  destruct (first_failure inputs _ idxs _ _ _) as [[e m']|] eqn:Hf.
  - destruct E as (w' & E & Hm). right. exists e. rewrite E. simpl.
    split; [reflexivity|]. rewrite Hm.
    eapply first_failure_raises. exact Hf.
  - left. rewrite E. apply keeps_model_gld_step.
Qed.

Lemma trials_from_passed (inputs : Batch) (m : store) (idxs : list nat)
  (mx : R) (space : list R) (t : trial) :
  forall np,
    first_failure inputs m idxs mx np space = None ->
    In t (trials_from inputs m idxs mx np space) ->
    exists s k,
      t = (compute_loss (snd (sweep s k idxs 0 m)) inputs, s, Some k)
      /\ forward_error (snd (sweep s k idxs 0 m)) inputs = None.
Proof.
  induction space as [|radius rest IH]; intros np; simpl; [intros _ []|].
  destruct (forward_error (snd (sweep _ _ idxs 0 m)) inputs) eqn:He;
    [discriminate|].
  intros Hf [<-|H].
  - do 2 eexists. split; [reflexivity | exact He].
  - now apply (IH (S np)).
Qed.

(** A step in full that returns, inside the training loop, is the step
    of [gld_step], and none of its forward passes has raised. *)
Lemma gld_step_full_returned (inputs : Batch) (w : world) (idxs : list nat)
  (l : loss) (w1 : world) :
  named_parameters_to_optim (self w) = Some idxs ->
  gld_step_full inputs w = (Ok l, w1) ->
  forward_error (model (self w)) inputs = None
  /\ first_failure inputs (model (self w)) idxs (max_radius (self w))
       (S (numpy_pos w)) (search_space (self w)) = None
  /\ gld_step inputs w = (Ok l, w1).
Proof.
  intros Hn E.
  destruct (forward_error (model (self w)) inputs) as [e|] eqn:He.
  { rewrite (gld_step_full_baseline_raises inputs w e He) in E.
    discriminate. }
  pose proof (gld_step_full_run inputs w idxs Hn He) as Hrun.
  destruct (first_failure inputs _ idxs _ _ _) as [[e m']|].
  - destruct Hrun as (w' & E' & _). rewrite E' in E. discriminate.
  - rewrite Hrun in E. now repeat split.
Qed.

(** ** The commit in full *)

Lemma gld_update_full_unset (w : world) :
  gld_seed (self w) = None ->
  gld_update_full w = (Raise AttributeError, w).
Proof.
  intros Hs. unfold gld_update_full. unfold bind at 1.
  unfold getattr. now rewrite Hs.
Qed.

(** No scale recorded, or no parameter in the model: the loop of the
    commit does nothing, and the scheduler is stepped. *)
Lemma gld_update_full_idle (w : world) (s : Z) :
  gld_seed (self w) = Some s ->
  best_scale (self w) = None \/ model (self w) = [] ->
  gld_update_full w = lr_scheduler_step (reseeded w s).
Proof.
  intros Hs Hidle. unfold gld_update_full.
  change (fun i : nat => _) with (update_body kw_type).
  unfold bind at 1. unfold getattr at 1. rewrite Hs.
  unfold bind at 1. unfold torch_manual_seed at 1.
  unfold bind at 1. unfold gets at 1.
  unfold bind at 1. fold (reseeded w s).
  destruct Hidle as [Hb|Hm].
  - now rewrite update_loop_baseline by exact Hb.
  - cbn [reseeded self]. rewrite Hm. reflexivity.
Qed.

Lemma gld_update_full_winner_raises (w : world) (s : Z) (k : R) (p : param)
  (rest : store) :
  gld_seed (self w) = Some s ->
  best_scale (self w) = Some k ->
  model (self w) = p :: rest ->
  gld_update_full w = (Raise TypeError, reseeded w s).
Proof.
  intros Hs Hb Hm. unfold gld_update_full.
  change (fun i : nat => _) with (update_body kw_type).
  unfold bind at 1. unfold getattr at 1. rewrite Hs.
  unfold bind at 1. unfold torch_manual_seed at 1.
  unfold bind at 1. unfold gets at 1. cbn [self].
  rewrite Hm. cbn [length seq for_each].
  unfold bind at 1. unfold bind at 1.
  rewrite (update_body_type_raises 0 _ k p); [reflexivity|exact Hb|].
  cbn [self]. now rewrite Hm.
Qed.

Lemma lr_scheduler_step_run (w : world) :
  lr_scheduler_step w
  = if lr_scheduler_created
    then (Ok tt, with_self (fun t => with_lr_scheduler (S (lr_scheduler t)) t) w)
    else (Raise AttributeError, w).
Proof. unfold lr_scheduler_step. now destruct lr_scheduler_created. Qed.

(** With a scheduler, the commit in full is the commit of [gld_update]. *)
Lemma gld_update_full_scheduled (w : world) :
  lr_scheduler_created = true ->
  gld_update_full w = gld_update w.
Proof.
  intros Hc. destruct (gld_seed (self w)) as [s|] eqn:Hs.
  2:{ unfold gld_update.
      now rewrite (gld_update_unset kw_type w Hs), gld_update_full_unset. }
  destruct (best_scale (self w)) as [k|] eqn:Hb.
  2:{ unfold gld_update. rewrite (gld_update_baseline kw_type w s Hs Hb).
      rewrite (gld_update_full_idle w s Hs (or_introl Hb)).
      rewrite lr_scheduler_step_run, Hc. reflexivity. }
  destruct (model (self w)) as [|p rest] eqn:Hm.
  - rewrite (gld_update_full_idle w s Hs (or_intror Hm)).
    rewrite lr_scheduler_step_run, Hc.
    unfold gld_update, gld_update_with.
    unfold bind at 1. unfold getattr at 1. rewrite Hs.
    unfold bind at 1. unfold torch_manual_seed at 1.
    unfold bind at 1. unfold gets at 1. cbn [self]. rewrite Hm.
    reflexivity.
  - rewrite (gld_update_winner_raises w s k p rest Hs Hb Hm).
    now rewrite (gld_update_full_winner_raises w s k p rest Hs Hb Hm).
Qed.

Lemma gld_update_full_model (w : world) :
  model (self (snd (gld_update_full w))) = model (self w).
Proof.
  destruct (gld_seed (self w)) as [s|] eqn:Hs.
  2:{ now rewrite gld_update_full_unset. }
  destruct (best_scale (self w)) as [k|] eqn:Hb.
  2:{ rewrite (gld_update_full_idle w s Hs (or_introl Hb)).
      rewrite lr_scheduler_step_run. now destruct lr_scheduler_created. }
  destruct (model (self w)) as [|p rest] eqn:Hm.
  - rewrite (gld_update_full_idle w s Hs (or_intror Hm)).
    rewrite lr_scheduler_step_run.
    destruct lr_scheduler_created; simpl; now rewrite Hm.
  - now rewrite (gld_update_full_winner_raises w s k p rest Hs Hb Hm).
Qed.

(** ** The properties of the code in full *)

(** C4: over the reals, a step that returns leaves the parameter values
    as it found them. Every trial that returns ends with the values it
    started from, and a forward pass, the baseline's included, changes
    nothing whether it returns or raises: so a step that returns has
    made no change to the parameters. A step that stops in the forward
    pass of a trial has not undone that trial, and is not covered. *)
Theorem gld_step_leaves_parameters (inputs : Batch) (w : world) (l : loss)
  (w' : world) :
  gld_step_full inputs w = (Ok l, w') ->
  model (self w') = model (self w)
  /\ (forall scale w0 t w1,
        do_trial_full inputs scale w0 = (Ok t, w1) ->
        model (self w1) = model (self w0))
  /\ (forall w0, snd (gld_forward_full inputs w0) = w0).
Proof.
  intros E. split; [|split].
  - destruct (gld_step_full_model inputs w) as [H|(e & H & _)];
      rewrite E in H; [exact H | discriminate].
  - intros scale w0 t w1 E0.
    destruct (named_parameters_to_optim (self w0)) as [idxs|] eqn:Hn.
    + rewrite (do_trial_full_run inputs scale w0 idxs Hn) in E0.
      destruct (forward_error _ inputs); [discriminate|].
      injection E0 as _ <-. reflexivity.
    + destruct (do_trial_full_unset inputs scale w0 Hn) as (_ & Hr & _).
      rewrite E0 in Hr. discriminate.
  - intros w0. unfold gld_forward_full.
    now destruct (forward_error (model (self w0)) inputs).
Qed.

(** X5: over the reals, what a step that returns has recorded can be
    replayed. Every entry of [losses] with a scale holds the loss of the
    parameter values that [perturb_parameters] with that entry's scale
    and seed produces from the current ones, and the forward pass on
    them does not raise; the entry without a scale holds the loss of the
    current values. *)
Theorem gld_step_trials_replay (inputs : Batch) (w : world)
  (idxs : list nat) (l : loss) (w1 : world) (t : trial) :
  named_parameters_to_optim (self w) = Some idxs ->
  gld_step_full inputs w = (Ok l, w1) ->
  In t (losses (self w1)) ->
  match trial_scale t with
  | None =>
      forward_error (model (self w1)) inputs = None
      /\ trial_loss t = compute_loss (model (self w1)) inputs
  | Some k =>
      exists w2,
        perturb_parameters k (Some (trial_seed t)) w1 = (Ok tt, w2)
        /\ forward_error (model (self w2)) inputs = None
        /\ trial_loss t = compute_loss (model (self w2)) inputs
  end.
Proof.
  intros Hn E Ht.
  destruct (gld_step_full_returned inputs w idxs l w1 Hn E)
    as (He & Hf & E').
  rewrite (gld_step_run_explicit inputs w idxs Hn) in E'.
  injection E' as _ <-. simpl in Ht. destruct Ht as [<-|Ht].
  - split; [exact He | reflexivity].
  - destruct (trials_from_passed _ _ _ _ _ _ _ Hf Ht) as (s & k & -> & Hp).
    simpl.
    rewrite (perturb_parameters_run k (Some s) _ s idxs eq_refl);
      [|exact Hn].
    eexists. split; [reflexivity|]. split; [exact Hp | reflexivity].
Qed.

(** X8: with an empty search space (the constructor accepts
    [num_ball_samples = 0]) a step whose forward pass returns evaluates
    the baseline alone and selects it, also when
    [named_parameters_to_optim] is not assigned; it takes one number
    from numpy and leaves torch's generator alone. The commit that
    follows changes no parameter; with a scheduler it advances the
    schedule by one, and without one (as on a trainer that has not
    entered the training loop) it stops with [AttributeError] at its
    last line. *)
Theorem gld_step_empty_search_space (inputs : Batch) (w : world) :
  search_space (self w) = [] ->
  forward_error (model (self w)) inputs = None ->
  let b := baseline_trial inputs w in
  let w1 := stepped w [b] b (torch_rng w) in
  gld_step_full inputs w = (Ok (trial_loss b), w1)
  /\ best_scale (self w1) = None
  /\ model (self (snd (gld_update_full w1))) = model (self w)
  /\ (lr_scheduler_created = true ->
      fst (gld_update_full w1) = Ok tt
      /\ lr_scheduler (self (snd (gld_update_full w1)))
         = S (lr_scheduler (self w)))
  /\ (lr_scheduler_created = false ->
      fst (gld_update_full w1) = Raise AttributeError
      /\ lr_scheduler (self (snd (gld_update_full w1)))
         = lr_scheduler (self w)).
Proof.
  intros Hs He b w1.
  assert (E : gld_step_full inputs w = (Ok (trial_loss b), w1)).
  { rewrite (gld_step_full_entry inputs w He). rewrite Hs.
    unfold w1, stepped. rewrite Hs.
    cbv [for_each bind ret select_lowest gets modify]. simpl.
    destruct w as [[] ? ?]. simpl. rewrite Nat.add_0_r. reflexivity. }
  split; [exact E|]. split; [reflexivity|].
  rewrite (gld_update_full_idle w1 (trial_seed b)); [|reflexivity|now left].
  rewrite lr_scheduler_step_run.
  split; [now destruct lr_scheduler_created|].
  split; intros ->; split; reflexivity.
Qed.

(** X10: the commit as it stands. It never changes a parameter value.
    It returns normally exactly when a seed is recorded, either no scale
    is recorded or the model has no parameter, and the scheduler exists.
    It stops with [AttributeError] exactly when no seed is recorded
    (line 589) or when its loop had nothing to do and there is no
    scheduler (line 605), and with [TypeError] in the remaining case, a
    recorded scale and a model with parameters. The schedule advances,
    by one, exactly when it returns normally. *)
Theorem gld_update_as_written (w : world) :
  model (self (snd (gld_update_full w))) = model (self w)
  /\ (fst (gld_update_full w) = Ok tt
      <-> gld_seed (self w) <> None
          /\ (best_scale (self w) = None \/ model (self w) = [])
          /\ lr_scheduler_created = true)
  /\ (fst (gld_update_full w) = Raise AttributeError
      <-> gld_seed (self w) = None
          \/ ((best_scale (self w) = None \/ model (self w) = [])
              /\ lr_scheduler_created = false))
  /\ (fst (gld_update_full w) = Raise TypeError
      <-> gld_seed (self w) <> None
          /\ best_scale (self w) <> None
          /\ model (self w) <> [])
  /\ lr_scheduler (self (snd (gld_update_full w)))
     = match fst (gld_update_full w) with
       | Ok _ => S (lr_scheduler (self w))
       | Raise _ => lr_scheduler (self w)
       end.
Proof.
  clear compute_loss forward_error randint_stream.
  split; [apply gld_update_full_model|].
  destruct (gld_seed (self w)) as [s|] eqn:Hs.
  2:{ rewrite (gld_update_full_unset w Hs). simpl.
      intuition (try discriminate; try congruence). }
  destruct (best_scale (self w)) as [k|] eqn:Hb.
  2:{ rewrite (gld_update_full_idle w s Hs (or_introl Hb)).
      rewrite lr_scheduler_step_run.
      destruct lr_scheduler_created; simpl;
        intuition (try discriminate; try congruence). }
  destruct (model (self w)) as [|p rest] eqn:Hm.
  - rewrite (gld_update_full_idle w s Hs (or_intror Hm)).
    rewrite lr_scheduler_step_run.
    destruct lr_scheduler_created; simpl;
      intuition (try discriminate; try congruence).
  - rewrite (gld_update_full_winner_raises w s k p rest Hs Hb Hm). simpl.
    intuition (try discriminate; try congruence).
Qed.

(** X16: over the reals, however steps and commits follow one another,
    the parameter values change in one way only: a forward pass raises
    inside a trial, the sequence stops there with that exception, and
    the parameters are left at the perturbed values it was raised on.
    When no forward pass raises, the values at the end are the ones at
    the start, wherever else the sequence stops: as the code stands,
    training with [use_gld] never moves a weight on purpose. *)
Theorem gld_calls_keep_parameters (calls : list gld_call) (w : world) :
  (model (self (snd (for_each calls run_call w))) = model (self w)
   \/ exists inputs e,
        In (call_step inputs) calls
        /\ fst (for_each calls run_call w) = Raise e
        /\ forward_error (model (self (snd (for_each calls run_call w))))
             inputs = Some e)
  /\ ((forall inputs m,
         In (call_step inputs) calls -> forward_error m inputs = None) ->
      model (self (snd (for_each calls run_call w))) = model (self w)).
Proof.
  assert (Hmain : forall l w0,
            model (self (snd (for_each l run_call w0))) = model (self w0)
            \/ exists inputs e,
                 In (call_step inputs) l
                 /\ fst (for_each l run_call w0) = Raise e
                 /\ forward_error
                      (model (self (snd (for_each l run_call w0)))) inputs
                    = Some e).
  { induction l as [|c rest IH]; intros w0; [now left|].
    cbn [for_each]. unfold bind at 1. unfold bind at 1. unfold bind at 1.
    assert (Hc : model (self (snd (run_call c w0))) = model (self w0)
                 \/ exists inputs e,
                      c = call_step inputs
                      /\ fst (run_call c w0) = Raise e
                      /\ forward_error (model (self (snd (run_call c w0))))
                           inputs = Some e).
    { destruct c as [inputs|]; simpl.
      - unfold bind.
        destruct (gld_step_full_model inputs w0) as [H|(e & H1 & H2)].
        + left. now destruct (gld_step_full inputs w0) as [[l0|e0] w2].
        + right. exists inputs, e.
          destruct (gld_step_full inputs w0) as [[l0|e0] w2];
            [discriminate|].
          simpl in H1. injection H1 as ->.
          split; [reflexivity|]. split; [reflexivity | exact H2].
      - left. apply gld_update_full_model. }
    destruct (run_call c w0) as [[[]|e1] w2] eqn:E1; simpl in Hc.
    - destruct Hc as [Hc|(inputs & e & _ & Hr & _)]; [|discriminate].
      destruct (IH w2) as [H|(inputs & e & Hin & Hr & Hf)].
      + left. congruence.
      + right. exists inputs, e. split; [now right|]. now split.
    - destruct Hc as [Hc|(inputs & e & -> & Hr & Hf)].
      + now left.
      + right. exists inputs, e. split; [now left|]. now split. }
  split; [apply Hmain|].
  intros Hnone. destruct (Hmain calls w) as [H|(inputs & e & Hin & _ & Hf)];
    [exact H|].
  rewrite (Hnone inputs _ Hin) in Hf. discriminate.
Qed.

(** X17: the outcomes of a step. If the baseline forward pass raises,
    the step raises that exception, with the parameters untouched.
    Otherwise, before [named_parameters_to_optim] is assigned it returns
    the baseline loss when the search space is empty and stops with
    [AttributeError] when it is not; and inside the training loop it
    raises what the first raising forward pass of a trial raises, with
    the parameters left at that trial's perturbed values, and returns
    the lowest loss when none raises. [min] never meets an empty trial
    list. *)
Theorem gld_step_outcomes (inputs : Batch) (w : world) :
  match forward_error (model (self w)) inputs with
  | Some e =>
      fst (gld_step_full inputs w) = Raise e
      /\ model (self (snd (gld_step_full inputs w))) = model (self w)
  | None =>
      match named_parameters_to_optim (self w) with
      | None =>
          model (self (snd (gld_step_full inputs w))) = model (self w)
          /\ (search_space (self w) = [] ->
              fst (gld_step_full inputs w)
              = Ok (compute_loss (model (self w)) inputs))
          /\ (search_space (self w) <> [] ->
              fst (gld_step_full inputs w) = Raise AttributeError)
      | Some idxs =>
          match first_failure inputs (model (self w)) idxs
                  (max_radius (self w)) (S (numpy_pos w))
                  (search_space (self w)) with
          | Some (e, m') =>
              fst (gld_step_full inputs w) = Raise e
              /\ model (self (snd (gld_step_full inputs w))) = m'
              /\ forward_error m' inputs = Some e
          | None =>
              fst (gld_step_full inputs w)
              = Ok (trial_loss (step_winner inputs w idxs))
              /\ model (self (snd (gld_step_full inputs w)))
                 = model (self w)
          end
      end
  end.
Proof.
  destruct (forward_error (model (self w)) inputs) as [e|] eqn:He.
  { now rewrite (gld_step_full_baseline_raises inputs w e He). }
  destruct (named_parameters_to_optim (self w)) as [idxs|] eqn:Hn.
  - pose proof (gld_step_full_run inputs w idxs Hn He) as Hrun.
    destruct (first_failure inputs _ idxs _ _ _) as [[e m']|] eqn:Hf.
    + destruct Hrun as (w' & -> & Hm). simpl.
      split; [reflexivity|]. split; [exact Hm|].
      eapply first_failure_raises. exact Hf.
    + rewrite Hrun, (gld_step_run_explicit inputs w idxs Hn).
      split; reflexivity.
  - rewrite (gld_step_full_outside inputs w Hn He).
    split; [apply keeps_model_gld_step|].
    destruct (search_space (self w)) as [|radius rest] eqn:Hs.
    + rewrite (gld_step_empty_run inputs w Hs).
      split; [reflexivity | intros H; now elim H].
    + rewrite (gld_step_unset_run inputs w radius rest Hn Hs).
      split; [discriminate | reflexivity].
Qed.

(** X18: one trial, over the reals. Inside the training loop [do_trial]
    draws a seed from numpy and perturbs the parameters as
    [perturb_parameters] with that seed and its scale does. If the
    forward pass on the perturbed values returns, the trial returns that
    loss with the seed and the scale, and leaves the trainer as it was
    but for the recorded seed, with torch's generator reset to the seed.
    If the forward pass raises, the trial raises the same exception and
    the parameters stay perturbed: nothing in [do_trial] undoes them. *)
Theorem do_trial_contract (inputs : Batch) (k : R) (w : world)
  (idxs : list nat) :
  named_parameters_to_optim (self w) = Some idxs ->
  let s := randint_stream (numpy_pos w) in
  exists w1,
    perturb_parameters k (Some s) w = (Ok tt, w1)
    /\ match forward_error (model (self w1)) inputs with
       | None =>
           exists w',
             do_trial_full inputs k w
             = (Ok (compute_loss (model (self w1)) inputs, s, Some k), w')
             /\ self w' = with_gld_seed (Some s) (self w)
             /\ numpy_pos w' = S (numpy_pos w)
             /\ torch_rng w'
                = {| rng_seed := s;
                     rng_pos := listed_entries (shape (model (self w))) idxs |}
       | Some e =>
           exists w',
             do_trial_full inputs k w = (Raise e, w')
             /\ self w' = with_gld_seed (Some s) (self w1)
             /\ numpy_pos w' = S (numpy_pos w)
             /\ torch_rng w' = torch_rng w1
       end.
Proof.
  intros Hn s.
  rewrite (perturb_parameters_run k (Some s) w s idxs eq_refl Hn).
  rewrite (do_trial_full_run inputs k w idxs Hn). fold s.
  eexists. split; [reflexivity|]. cbn [swept self model with_model snd].
  destruct (forward_error (snd (sweep s k idxs 0 (model (self w)))) inputs).
  - eexists. split; [reflexivity|]. unfold interrupted.
    destruct w as [[] ? ?]. repeat split.
  - eexists. split; [reflexivity|]. simpl. rewrite sweep_fst.
    repeat split.
Qed.

End GLD.

(** ** The demo trainer, run *)

Lemma demo_trainer_constructed :
  __init__ true 1 8 1 demo_model
  = Ok (with_named_parameters_to_optim None demo_trainer).
Proof.
  unfold __init__, py_truediv, math_log.
  destruct (Req_dec_T 1 0) as [H|_]; [lra|]. simpl.
  destruct (Rlt_dec 0 (8 / 1)) as [_|H]; [|exfalso; lra]. simpl.
  unfold np_linspace. simpl. change (Pos.to_nat 1) with 1%nat.
  unfold linspace_samples. simpl.
  replace (0 * (ln (8 / 1) - 0) + 0) with 0 by ring. reflexivity.
Qed.

Lemma demo_named :
  named_parameters_to_optim (self demo_world) = Some [0%nat].
Proof. reflexivity. Qed.

Lemma demo_const_step (c : loss) :
  loss_lt c c = false ->
  step_winner demo_normal demo_randint unit (loss_const c) tt demo_world [0%nat]
  = (c, 0%Z, None).
Proof.
  intros H. unfold step_winner, step_trials, baseline_trial.
  cbn [demo_world demo_trainer self search_space trials_from min_scan
       trial_loss fst snd model].
  unfold loss_const. rewrite H. reflexivity.
Qed.

Lemma demo_moved_step (a b : loss) :
  baseline_trial demo_randint unit (loss_if_moved a b) tt demo_world
  = (a, 0%Z, None)
  /\ step_trials demo_normal demo_randint unit (loss_if_moved a b) tt
       demo_world [0%nat]
     = [(b, 1%Z, Some 8)].
Proof.
  split.
  - unfold baseline_trial, loss_if_moved. simpl.
    destruct (Req_dec_T 0 0) as [_|H]; [reflexivity | now elim H].
  - unfold step_trials.
    cbn [demo_world demo_trainer self search_space trials_from max_radius
         model numpy_pos].
    rewrite trial_of_radius_0.
    unfold loss_if_moved, demo_model. simpl. unfold demo_normal. simpl.
    destruct (Req_dec_T (0 + 8 * 1) 0) as [H|_]; [exfalso; lra|].
    reflexivity.
Qed.

(** Two stores of the demo are equal when their entries are. *)
Ltac store_eq :=
  repeat (progress (simpl; unfold add_at, set_data, demo_normal));
  repeat f_equal; try ring.

(** C1, on the code: after a step that a perturbed trial won (seed 1,
    scale 8), the commit stops with [TypeError] at its first call of
    [torch.normal] and leaves the parameter at 0, where
    [perturb_parameters] with the winning seed and scale moves it to 8.
    And were the keyword accepted, the commit would still sweep every
    parameter of the model, the frozen ones included, so the trainable
    parameter would receive another draw than the trial gave it. *)
Theorem commit_misses_winning_perturbation :
  (exists l w1 w2 w3,
     gld_step demo_normal demo_randint unit (loss_if_moved f0_9 f0_5) tt
       demo_world = (Ok l, w1)
     /\ l = f0_5
     /\ gld_seed (self w1) = Some 1%Z
     /\ best_scale (self w1) = Some 8
     /\ model (self w1) = [mkParam "weight" true [0]]
     /\ gld_update demo_normal w1 = (Raise TypeError, w2)
     /\ model (self w2) = [mkParam "weight" true [0]]
     /\ lr_scheduler (self w2) = lr_scheduler (self w1)
     /\ perturb_parameters demo_normal 8 (Some 1%Z) w1 = (Ok tt, w3)
     /\ model (self w3) = [mkParam "weight" true [8]])
  /\ (exists w2 w3,
        gld_update_with demo_normal kw_dtype frozen_world = (Ok tt, w2)
        /\ model (self w2)
           = [mkParam "embed" false [1]; mkParam "weight" true [2]]
        /\ perturb_parameters demo_normal 1 (Some 0%Z) frozen_world
           = (Ok tt, w3)
        /\ model (self w3)
           = [mkParam "embed" false [0]; mkParam "weight" true [1]]).
Proof.
  split.
  - destruct (gld_step_run demo_normal demo_randint unit
                (loss_if_moved f0_9 f0_5) tt demo_world [0%nat] eq_refl)
      as (tr & E).
    destruct (demo_moved_step f0_9 f0_5) as [Hb Ht].
    unfold step_winner in E. rewrite Hb, Ht in E. simpl in E.
    rewrite E. do 4 eexists.
    split; [reflexivity|]. split; [reflexivity|]. split; [reflexivity|].
    split; [reflexivity|]. split; [reflexivity|].
    split; [eapply gld_update_winner_raises; reflexivity|].
    split; [reflexivity|]. split; [reflexivity|].
    split; [apply (perturb_parameters_run demo_normal 8 (Some 1%Z) _ 1%Z
                     [0%nat]); reflexivity|].
    store_eq.
  - do 2 eexists.
    split; [apply (gld_update_dtype_run demo_normal frozen_world 0%Z 1);
            reflexivity|].
    split.
    + store_eq.
    + split; [apply (perturb_parameters_run demo_normal 1 (Some 0%Z) _ 0%Z
                       [1%nat]); reflexivity|].
      store_eq.
Qed.

(** The selection theorem at the demo trainer with the constant loss
    0.5: the baseline ties with the trial and wins. *)
Lemma gld_step_selects_first_minimum_witness :
  exists l w' win,
    gld_step demo_normal demo_randint unit (loss_const f0_5) tt demo_world
    = (Ok l, w')
    /\ l = trial_loss win
    /\ best_scale (self w') = trial_scale win.
Proof.
  destruct (gld_step_selects_first_minimum demo_normal demo_randint unit
              (loss_const f0_5) tt demo_world [0%nat] eq_refl)
    as (l & w' & win & bf & af & E & Hl & _ & Hb & _).
  exists l, w', win. split; [exact E|]. split; [exact Hl | exact Hb].
Defined.

(** The round trip at the demo trainer, seed 7 and scale 2. *)
Lemma perturb_round_trip_witness :
  exists w1 w2,
    perturb_parameters demo_normal 2 (Some 7%Z) demo_world = (Ok tt, w1)
    /\ perturb_parameters demo_normal (- 2) (Some 7%Z) w1 = (Ok tt, w2)
    /\ model (self w2) = model (self demo_world).
Proof.
  destruct (perturb_round_trip demo_normal 2 7%Z demo_world [0%nat] eq_refl)
    as (w1 & w2 & E1 & _ & E2 & Hm & _).
  exists w1, w2. split; [exact E1|]. split; [exact E2 | exact Hm].
Defined.

(** The baseline wins at the demo trainer with a constant loss, and the
    commit then changes no parameter. *)
Lemma baseline_commit_changes_nothing_witness :
  exists l w1 w2,
    gld_step demo_normal demo_randint unit (loss_const f0_5) tt demo_world
    = (Ok l, w1)
    /\ best_scale (self w1) = None
    /\ gld_update demo_normal w1 = (Ok tt, w2)
    /\ model (self w2) = model (self demo_world)
    /\ lr_scheduler (self w2) = S (lr_scheduler (self w1)).
Proof.
  destruct (gld_step_run demo_normal demo_randint unit (loss_const f0_5) tt
              demo_world [0%nat] eq_refl) as (tr & E).
  rewrite (demo_const_step f0_5 eq_refl) in E.
  destruct (baseline_commit_changes_nothing demo_normal demo_randint unit
              (loss_const f0_5) tt demo_world [0%nat] _ _ eq_refl E eq_refl)
    as (w2 & E2 & _ & Hm & Hlr).
  do 3 eexists. split; [exact E|]. split; [reflexivity|].
  split; [exact E2|]. split; [exact Hm | exact Hlr].
Defined.

(** C7 fails on the code: after a step that the baseline won, the second
    commit in a row returns normally, like the first. *)
Lemma second_commit_is_accepted :
  exists l w1 w2 w3,
    gld_step demo_normal demo_randint unit (loss_const f0_5) tt demo_world
    = (Ok l, w1)
    /\ gld_update demo_normal w1 = (Ok tt, w2)
    /\ gld_update demo_normal w2 = (Ok tt, w3)
    /\ lr_scheduler (self w3) = 2%nat.
Proof.
  destruct (gld_step_run demo_normal demo_randint unit (loss_const f0_5) tt
              demo_world [0%nat] eq_refl) as (tr & E).
  rewrite (demo_const_step f0_5 eq_refl) in E.
  rewrite E. do 4 eexists. split; [reflexivity|].
  split; [apply (gld_update_baseline demo_normal kw_type _ 0%Z); reflexivity|].
  split; [apply (gld_update_baseline demo_normal kw_type _ 0%Z); reflexivity|].
  reflexivity.
Qed.

Lemma gld_update_pairing_unchecked_witness :
  exists l w1 w2 w3,
    gld_step demo_normal demo_randint unit (loss_const f0_5) tt demo_world
    = (Ok l, w1)
    /\ gld_update demo_normal w1 = (Ok tt, w2)
    /\ gld_update demo_normal w2 = (Ok tt, w3)
    /\ model (self w3) = model (self w1)
    /\ gld_update demo_normal
         {| self := with_named_parameters_to_optim None demo_trainer;
            torch_rng := {| rng_seed := 0; rng_pos := 0 |};
            numpy_pos := 0 |}
       = (Raise AttributeError,
          {| self := with_named_parameters_to_optim None demo_trainer;
             torch_rng := {| rng_seed := 0; rng_pos := 0 |};
             numpy_pos := 0 |}).
Proof.
  destruct (gld_step_run demo_normal demo_randint unit (loss_const f0_5) tt
              demo_world [0%nat] eq_refl) as (tr & E).
  rewrite (demo_const_step f0_5 eq_refl) in E.
  destruct (gld_update_pairing_unchecked demo_normal demo_randint unit
              (loss_const f0_5) tt demo_world [0%nat] _ _ eq_refl E eq_refl)
    as ((w2 & w3 & E2 & E3 & _ & _ & Hm & _) & Hinit).
  do 4 eexists. split; [exact E|]. split; [exact E2|]. split; [exact E3|].
  split; [exact Hm|].
  exact (Hinit true 1 8 1%Z demo_model _ _ _ demo_trainer_constructed).
Defined.

(** C9 fails on the code: with the baseline loss [+inf] and the trial
    loss [-inf] every loss of the trial set is non-finite, and the
    perturbed trial is selected, not the baseline. *)
Lemma infinite_baseline_loses :
  exists l w1,
    gld_step demo_normal demo_randint unit (loss_if_moved pos_inf neg_inf) tt
      demo_world = (Ok l, w1)
    /\ losses (self w1) = [(pos_inf, 0%Z, None); (neg_inf, 1%Z, Some 8)]
    /\ forallb (fun t => negb (is_finite (trial_loss t))) (losses (self w1))
       = true
    /\ l = neg_inf
    /\ gld_seed (self w1) = Some 1%Z
    /\ best_scale (self w1) = Some 8.
Proof.
  destruct (gld_step_run demo_normal demo_randint unit
              (loss_if_moved pos_inf neg_inf) tt demo_world [0%nat] eq_refl)
    as (tr & E).
  destruct (demo_moved_step pos_inf neg_inf) as [Hb Ht].
  unfold step_winner in E. rewrite Hb, Ht in E. simpl in E.
  rewrite E. do 2 eexists. repeat split.
Qed.

(** The NaN theorem at the demo trainer with the constant loss NaN. *)
Lemma nan_baseline_is_selected_witness :
  exists l w1,
    gld_step demo_normal demo_randint unit (loss_const nan) tt demo_world
    = (Ok l, w1)
    /\ forallb (fun t => is_nan (trial_loss t)) (losses (self w1)) = true
    /\ l = nan
    /\ best_scale (self w1) = None.
Proof.
  destruct (gld_step_run demo_normal demo_randint unit (loss_const nan) tt
              demo_world [0%nat] eq_refl) as (tr & E).
  rewrite (demo_const_step nan eq_refl) in E.
  destruct (nan_baseline_is_selected demo_normal demo_randint unit
              (loss_const nan) tt demo_world [0%nat] _ _ _ _ eq_refl E
              eq_refl (or_introl eq_refl))
    as (_ & _ & Hl & _ & Hb).
  do 2 eexists. split; [exact E|]. split; [reflexivity|].
  split; [reflexivity | exact Hb].
Defined.

(** The single-sample theorem at [min_radius = 1], [max_radius = 8]. *)
Lemma single_sample_search_space_witness :
  __init__ true 1 8 1 demo_model
  = Ok (with_named_parameters_to_optim None demo_trainer)
  /\ search_space (with_named_parameters_to_optim None demo_trainer) = [0]
  /\ map (trial_of_radius 8) [0] = [8].
Proof.
  destruct (single_sample_search_space demo_normal demo_randint unit
              (loss_const f0_5) true 1 8 demo_model _
              demo_trainer_constructed) as (Hs & _ & Hm & _).
  split; [exact demo_trainer_constructed|]. split; [exact Hs | exact Hm].
Defined.

(** ** The constructor *)

(** C6 fails on the code: the constructor accepts a maximum radius below
    the minimum one, and it accepts no samples at all. *)
Lemma init_accepts_bad_configuration :
  (1 <= 2
   /\ exists t, __init__ true 2 1 4 [] = Ok t /\ log_radius t = ln (1 / 2))
  /\ ((0 < 1)%Z
      /\ exists t, __init__ true 1 8 0 [] = Ok t /\ search_space t = []).
Proof.
  split; (split; [lia || lra|]).
  - unfold __init__, py_truediv, math_log.
    destruct (Req_dec_T 2 0) as [H|_]; [exfalso; lra|]. simpl.
    destruct (Rlt_dec 0 (1 / 2)) as [_|H]; [|exfalso; lra]. simpl.
    eexists. split; reflexivity.
  - unfold __init__, py_truediv, math_log.
    destruct (Req_dec_T 1 0) as [H|_]; [exfalso; lra|]. simpl.
    destruct (Rlt_dec 0 (8 / 1)) as [_|H]; [|exfalso; lra]. simpl.
    eexists. split; reflexivity.
Qed.

Lemma np_linspace_length (start stop : R) (num : Z) (l : list R) :
  np_linspace start stop num = Ok l -> length l = Z.to_nat num.
Proof.
  unfold np_linspace. destruct (num <? 0)%Z; [discriminate|].
  intros H. injection H as <-.
  assert (Hs : length (linspace_samples start stop (Z.to_nat num))
               = Z.to_nat num).
  { unfold linspace_samples. now rewrite length_map, length_seq. }
  destruct (Nat.ltb_spec 1 (Z.to_nat num)) as [Hn|Hn]; [|exact Hs].
  rewrite length_app. simpl.
  destruct (linspace_samples start stop (Z.to_nat num)) as [|x y] eqn:Ey.
  - simpl in Hs. lia.
  - rewrite removelast_firstn_len, length_firstn. simpl in *. lia.
Qed.

(** C6, as the code has it: the constructor raises exactly when
    [min_radius] is 0 (the division), when [max_radius / min_radius] is
    not positive (the logarithm), or when [num_ball_samples] is negative
    ([np.linspace]); every other configuration is accepted, with
    [log_radius = ln (max_radius / min_radius)] and [num_ball_samples]
    search-space entries. *)
Theorem init_raises_exactly (u : bool) (mn mx : R) (n : Z) (m : store) :
  ((exists e, __init__ u mn mx n m = Raise e)
   <-> (mn = 0 \/ mx / mn <= 0 \/ (n < 0)%Z))
  /\ (__init__ u mn mx n m = Raise ZeroDivisionError <-> mn = 0)
  /\ ((mn <> 0 /\ 0 < mx / mn /\ (0 <= n)%Z)
      <-> exists t,
            __init__ u mn mx n m = Ok t
            /\ log_radius t = ln (mx / mn)
            /\ length (search_space t) = Z.to_nat n
            /\ best_scale t = None).
Proof.
  unfold __init__, py_truediv, math_log.
  destruct (Req_dec_T mn 0) as [Hmn|Hmn]; simpl.
  { split; [|split]; split; intros H.
    - now left.
    - now exists ZeroDivisionError.
    - exact Hmn.
    - reflexivity.
    - now destruct H as [H _].
    - destruct H as (t & H & _). discriminate. }
  destruct (Rlt_dec 0 (mx / mn)) as [Hq|Hq]; simpl.
  2:{ split; [|split]; split; intros H.
      - right; left. lra.
      - now exists ValueError.
      - discriminate.
      - now elim Hmn.
      - now destruct H as (_ & H & _).
      - destruct H as (t & H & _). discriminate. }
  destruct (np_linspace 0 (ln (mx / mn)) n) as [sp|e] eqn:Hsp; simpl.
  - assert (Hn : (0 <= n)%Z).
    { unfold np_linspace in Hsp.
      destruct (Z.ltb_spec n 0); [discriminate | assumption]. }
    split; [|split]; split; intros H.
    + destruct H as (e & H). discriminate.
    + destruct H as [H|[H|H]]; [now elim Hmn | lra | lia].
    + discriminate.
    + now elim Hmn.
    + eexists. split; [reflexivity|]. simpl.
      split; [reflexivity|]. split; [|reflexivity].
      now apply (np_linspace_length _ _ _ _ Hsp).
    + now repeat split.
  - assert (Hn : (n < 0)%Z).
    { unfold np_linspace in Hsp.
      destruct (Z.ltb_spec n 0); [assumption | discriminate]. }
    split; [|split]; split; intros H.
    + now right; right.
    + now exists e.
    + unfold np_linspace in Hsp.
      destruct (n <? 0)%Z; [|discriminate].
      injection Hsp as <-. discriminate.
    + now elim Hmn.
    + lia.
    + destruct H as (t & H & _). discriminate.
Qed.

(** ** The search space of the example configuration *)

Lemma ln_2_lt_1 : ln 2 < 1.
Proof.
  rewrite <- (ln_exp 1). apply ln_increasing; [lra|].
  pose proof (exp_ineq1 1). lra.
Qed.

Lemma ln_8 : ln 8 = 3 * ln 2.
Proof.
  replace 8 with (2 ^ 3) by ring. rewrite ln_pow by lra. simpl. ring.
Qed.

Lemma Rpower_2_neg (n : nat) : Rpower 2 (- INR n) = / 2 ^ n.
Proof. rewrite Rpower_Ropp, Rpower_pow by lra. reflexivity. Qed.

(** Below the integer [n], the exponent gives more than [8 / 2 ^ n]. *)
Lemma trial_of_radius_above (n : nat) (r : R) :
  r < INR n -> 8 / 2 ^ n < trial_of_radius 8 r.
Proof.
  intros H. unfold trial_of_radius.
  assert (Hp : Rpower 2 (- INR n) < Rpower 2 (-1 * r))
    by (apply Rpower_lt; lra).
  rewrite Rpower_2_neg in Hp. unfold Rdiv. lra.
Qed.

(** C8, on the code: for [min_radius = 1], [max_radius = 8] and four
    samples the search space is 0, ln 2, 2 ln 2, ln 8, as claimed; but
    the trial scales made from it with [2 ** (-r) * max_radius] are 8 and
    then three values strictly above 4, 2 and 1: the radius is a natural
    logarithm and the scale a power of 2, so the scales stop short of
    [min_radius]. *)
Theorem search_space_1_8_4 :
  exists t s1 s2 s3,
    __init__ true 1 8 4 [] = Ok t
    /\ search_space t = [0; ln 2; 2 * ln 2; ln 8]
    /\ map (trial_of_radius (max_radius t)) (search_space t) = [8; s1; s2; s3]
    /\ 4 < s1 /\ 2 < s2 /\ 1 < s3
    /\ min_radius t < s3.
Proof.
  unfold __init__, py_truediv, math_log.
  destruct (Req_dec_T 1 0) as [H|_]; [exfalso; lra|]. simpl.
  destruct (Rlt_dec 0 (8 / 1)) as [_|H]; [|exfalso; lra]. simpl.
  unfold np_linspace. simpl. change (Pos.to_nat 4) with 4%nat.
  unfold linspace_samples. simpl.
  replace (8 / 1) with 8 by field.
  do 4 eexists. split; [reflexivity|]. simpl.
  split.
  { rewrite ln_8.
    repeat match goal with
           | |- _ :: _ = _ :: _ => apply (f_equal2 cons); [field|]
           end.
    reflexivity. }
  split.
  { replace (0 * ((ln 8 - 0) / (1 + 1 + 1)) + 0) with 0 by field.
    rewrite trial_of_radius_0. reflexivity. }
  pose proof ln_2_lt_1 as H2. pose proof ln_8 as H8.
  assert (H1 : 8 / 2 ^ 1 < trial_of_radius 8 (1 * ((ln 8 - 0) / (1 + 1 + 1)) + 0)).
  { apply trial_of_radius_above. simpl. lra. }
  assert (H3 : 8 / 2 ^ 2
               < trial_of_radius 8 ((1 + 1) * ((ln 8 - 0) / (1 + 1 + 1)) + 0)).
  { apply trial_of_radius_above. simpl. lra. }
  assert (H4 : 8 / 2 ^ 3 < trial_of_radius 8 (ln 8)).
  { apply trial_of_radius_above. simpl. lra. }
  simpl in H1, H3, H4. repeat split; lra.
Qed.

(** ** The search space and the trial scales in general *)

Lemma np_linspace_nth_error (a b : R) (n : Z) (l : list R) (i : nat) :
  np_linspace a b n = Ok l ->
  (i < Z.to_nat n)%nat ->
  nth_error l i
  = Some (if (Z.to_nat n =? 1)%nat then a
          else a + INR i * ((b - a) / INR (Z.to_nat n - 1))).
Proof.
  unfold np_linspace. destruct (n <? 0)%Z; [discriminate|].
  intros H Hi. injection H as <-.
  set (n' := Z.to_nat n) in *.
  assert (Hy : forall j, (j < n')%nat ->
            nth_error (linspace_samples a b n') j
            = Some (if (0 <? n' - 1)%nat
                    then INR j * ((b - a) / INR (n' - 1)) + a
                    else INR j * (b - a) + a)).
  { intros j Hj. unfold linspace_samples.
    rewrite nth_error_map, nth_error_seq.
    destruct (Nat.ltb_spec j n') as [_|Hge]; [reflexivity | lia]. }
  destruct (Nat.ltb_spec 1 n') as [Hn|Hn].
  - destruct (Nat.eqb_spec n' 1) as [He|_]; [lia|].
    assert (Hlen : length (linspace_samples a b n') = n')
      by (unfold linspace_samples; now rewrite length_map, length_seq).
    assert (Hrl : length (removelast (linspace_samples a b n'))
                  = (n' - 1)%nat).
    { rewrite removelast_firstn_len, length_firstn, Hlen. lia. }
    destruct (Nat.eq_dec i (n' - 1)) as [->|Hne].
    + rewrite nth_error_app2 by lia. rewrite Hrl, Nat.sub_diag. simpl.
      f_equal. field. apply not_0_INR. lia.
    + rewrite nth_error_app1 by lia.
      rewrite removelast_firstn_len, nth_error_firstn, Hlen.
      destruct (Nat.ltb_spec i (Nat.pred n')) as [_|Hge]; [|lia].
      rewrite Hy by lia.
      destruct (Nat.ltb_spec 0 (n' - 1)) as [_|Hge]; [|lia].
      f_equal. ring.
  - assert (He : n' = 1%nat) by lia. rewrite He in *.
    assert (Hi0 : i = 0%nat) by lia. subst i.
    rewrite Hy by lia. simpl. f_equal. ring.
Qed.

Lemma init_space_entries (u : bool) (mn mx : R) (n : Z) (m : store)
  (t : GLDTrainer) :
  __init__ u mn mx n m = Ok t ->
  length (search_space t) = Z.to_nat n
  /\ log_radius t = ln (mx / mn)
  /\ (forall i, (i < Z.to_nat n)%nat ->
        nth_error (search_space t) i
        = Some (if (Z.to_nat n =? 1)%nat then 0
                else INR i * (log_radius t / INR (Z.to_nat n - 1)))).
Proof.
  intros Ht.
  destruct (init_fields _ _ _ _ _ _ Ht)
    as (lr & Hlog & _ & Hsp & _ & _ & Hlr & _).
  assert (Hln : lr = ln (mx / mn)).
  { unfold math_log in Hlog. destruct (Rlt_dec 0 (mx / mn)); [|discriminate].
    now injection Hlog. }
  split; [now apply (np_linspace_length _ _ _ _ Hsp)|].
  split; [now rewrite Hlr|].
  intros i Hi. rewrite (np_linspace_nth_error _ _ _ _ i Hsp Hi), Hlr.
  destruct (Z.to_nat n =? 1)%nat; [reflexivity|]. f_equal.
  unfold Rdiv. ring.
Qed.

(** X11: the search space that the constructor builds has
    [num_ball_samples] entries; a single entry is 0; from two entries on
    they are evenly spaced, entry [i] being [i * log_radius / (n - 1)],
    from 0 at the start to [log_radius] at the end. *)
Theorem search_space_evenly_spaced (u : bool) (mn mx : R) (n : Z)
  (m : store) (t : GLDTrainer) :
  __init__ u mn mx n m = Ok t ->
  length (search_space t) = Z.to_nat n
  /\ log_radius t = ln (mx / mn)
  /\ (forall i, (i < Z.to_nat n)%nat ->
        nth_error (search_space t) i
        = Some (if (Z.to_nat n =? 1)%nat then 0
                else INR i * (log_radius t / INR (Z.to_nat n - 1))))
  /\ ((1 <= n)%Z -> nth_error (search_space t) 0 = Some 0)
  /\ ((2 <= n)%Z ->
      nth_error (search_space t) (Z.to_nat n - 1) = Some (log_radius t)).
Proof.
  intros Ht.
  destruct (init_space_entries _ _ _ _ _ _ Ht) as (Hlen & Hlog & Hnth).
  split; [exact Hlen|]. split; [exact Hlog|]. split; [exact Hnth|]. split.
  - intros Hn. rewrite Hnth by lia.
    destruct (Z.to_nat n =? 1)%nat; [reflexivity|]. f_equal. simpl. ring.
  - intros Hn. rewrite Hnth by lia.
    destruct (Nat.eqb_spec (Z.to_nat n) 1) as [He|_]; [lia|].
    f_equal. field. apply not_0_INR. lia.
Qed.

Lemma trial_of_radius_range (mn mx r : R) :
  0 < mn -> mn < mx -> 0 <= r <= ln (mx / mn) ->
  mn < trial_of_radius mx r <= mx.
Proof.
  intros Hmn Hmx [Hr0 HrL]. unfold trial_of_radius.
  assert (Hq : 1 < mx / mn).
  { apply (Rmult_lt_reg_r mn); [exact Hmn|]. field_simplify; lra. }
  assert (HL : 0 < ln (mx / mn)).
  { rewrite <- ln_1. apply ln_increasing; lra. }
  split.
  - assert (H1 : Rpower 2 (- ln (mx / mn)) <= Rpower 2 (-1 * r))
      by (apply Rle_Rpower; lra).
    assert (H2 : exp (- ln (mx / mn)) < Rpower 2 (- ln (mx / mn))).
    { unfold Rpower. apply exp_increasing.
      pose proof ln_2_lt_1. pose proof ln_lt_2. nra. }
    rewrite exp_Ropp, exp_ln in H2 by lra.
    assert (H3 : / (mx / mn) * mx = mn) by (field; lra).
    nra.
  - assert (H1 : Rpower 2 (-1 * r) <= Rpower 2 0)
      by (apply Rle_Rpower; lra).
    rewrite Rpower_O in H1 by lra. nra.
Qed.

(** X12: for [0 < min_radius < max_radius] every entry of the search
    space lies between 0 and [log_radius], and every trial scale made
    from it lies strictly above [min_radius] and at most at
    [max_radius]: no trial is ever run at [min_radius] itself. *)
Theorem trial_scales_within_radii (u : bool) (mn mx : R) (n : Z)
  (m : store) (t : GLDTrainer) (r : R) :
  __init__ u mn mx n m = Ok t ->
  0 < mn -> mn < mx ->
  In r (search_space t) ->
  0 <= r <= log_radius t
  /\ min_radius t < trial_of_radius (max_radius t) r <= max_radius t.
Proof.
  intros Ht Hmn Hmx Hin.
  destruct (init_space_entries _ _ _ _ _ _ Ht) as (Hlen & Hlog & Hnth).
  destruct (init_fields _ _ _ _ _ _ Ht)
    as (lr & _ & _ & _ & Hmax & Hmin & _).
  assert (Hq : 1 < mx / mn).
  { apply (Rmult_lt_reg_r mn); [exact Hmn|]. field_simplify; lra. }
  assert (HL : 0 < log_radius t).
  { rewrite Hlog, <- ln_1. apply ln_increasing; lra. }
  assert (Hr : 0 <= r <= log_radius t).
  { destruct (In_nth_error _ _ Hin) as (i & Hi).
    assert (Hlt : (i < Z.to_nat n)%nat).
    { rewrite <- Hlen. apply nth_error_Some. now rewrite Hi. }
    rewrite (Hnth i Hlt) in Hi. injection Hi as <-.
    destruct (Nat.eqb_spec (Z.to_nat n) 1) as [_|Hne]; [lra|].
    assert (Hd : 0 < INR (Z.to_nat n - 1)) by (apply lt_0_INR; lia).
    assert (Hi' : INR i <= INR (Z.to_nat n - 1)) by (apply le_INR; lia).
    pose proof (pos_INR i) as Hi0.
    assert (Hfrac : 0 <= INR i / INR (Z.to_nat n - 1) <= 1).
    { split.
      - apply Rmult_le_pos; [exact Hi0|]. left. now apply Rinv_0_lt_compat.
      - apply (Rmult_le_reg_r (INR (Z.to_nat n - 1))); [exact Hd|].
        field_simplify; lra. }
    replace (INR i * (log_radius t / INR (Z.to_nat n - 1)))
      with (INR i / INR (Z.to_nat n - 1) * log_radius t) by (field; lra).
    nra. }
  split; [exact Hr|]. rewrite Hmax, Hmin.
  apply trial_of_radius_range; try assumption. now rewrite <- Hlog.
Qed.

(** ** The name test *)

Lemma prefix_spec (t s : string) :
  String.prefix t s = true <-> exists b, s = (t ++ b)%string.
Proof.
  revert s; induction t as [|c t IH]; intros s.
  - split; [intros _; now exists s | intros _; now destruct s].
  - destruct s as [|c' s]; simpl.
    { split; [discriminate | intros (b & H); discriminate]. }
    destruct (Ascii.ascii_dec c c') as [->|Hne].
    + rewrite IH. split; intros (b & H); exists b.
      * now rewrite H.
      * now injection H.
    + split; [discriminate|]. intros (b & H). injection H as H _.
      now elim Hne.
Qed.

Lemma str_in_eq (t s : string) :
  str_in t s
  = if String.prefix t s then true
    else match s with
         | EmptyString => false
         | String _ s' => str_in t s'
         end.
Proof. now destruct s. Qed.

Lemma str_in_spec (t s : string) :
  str_in t s = true <-> exists a b, s = (a ++ t ++ b)%string.
Proof.
  split.
  - induction s as [|c s IH]; rewrite str_in_eq.
    + destruct (String.prefix t "") eqn:E; [|discriminate].
      intros _. apply prefix_spec in E. destruct E as (b & E).
      now exists ""%string, b.
    + destruct (String.prefix t (String c s)) eqn:E.
      * intros _. apply prefix_spec in E. destruct E as (b & E).
        now exists ""%string, b.
      * intros H. destruct (IH H) as (a & b & ->).
        now exists (String c a), b.
  - intros (a & b & ->). induction a as [|c a IH]; rewrite str_in_eq.
    + assert (E : String.prefix t (t ++ b) = true)
        by (apply prefix_spec; now exists b).
      simpl. now rewrite E.
    + change (String c a ++ t ++ b)%string
        with (String c (a ++ t ++ b)%string).
      destruct (String.prefix t (String c (a ++ t ++ b))); [reflexivity|].
      exact IH.
Qed.

(** X13: [_list_not_in_name] answers [True] exactly when none of the
    search terms occurs in the name as a substring. So an empty list of
    terms lets every name pass, an empty term lets none pass, and the
    test is case-sensitive: with [NO_WD_PARAM_NAMES], every name that
    contains [bias] is refused while [LayerNorm.weight] passes. *)
Theorem list_not_in_name_spec (search_terms : list string) (n : string) :
  (_list_not_in_name search_terms n = true
   <-> forall t, In t search_terms ->
                 ~ exists a b, n = (a ++ t ++ b)%string)
  /\ _list_not_in_name [] n = true
  /\ (In ""%string search_terms -> _list_not_in_name search_terms n = false)
  /\ (forall a b,
        _list_not_in_name NO_WD_PARAM_NAMES (a ++ "bias" ++ b)%string = false)
  /\ _list_not_in_name NO_WD_PARAM_NAMES "LayerNorm.weight" = true.
Proof.
  assert (Hspec : forall terms,
            _list_not_in_name terms n = true
            <-> forall t, In t terms ->
                          ~ exists a b, n = (a ++ t ++ b)%string).
  { induction terms as [|t0 terms IH]; simpl.
    - split; [intros _ t [] | reflexivity].
    - destruct (str_in t0 n) eqn:E.
      + split; [discriminate|]. intros H. exfalso.
        apply (H t0); [now left|]. now apply str_in_spec.
      + rewrite IH. split.
        * intros H t [<-|Ht]; [|now apply H].
          intros Hex. apply str_in_spec in Hex. congruence.
        * intros H t Ht. apply H. now right. }
  split; [apply Hspec|]. split; [reflexivity|]. split; [|split].
  - intros Hin. destruct (_list_not_in_name search_terms n) eqn:E;
      [|reflexivity].
    exfalso. apply (proj1 (Hspec search_terms) E ""%string Hin).
    now exists ""%string, n.
  - intros a b.
    assert (E : str_in "bias" (a ++ "bias" ++ b) = true)
      by (apply str_in_spec; now exists a, b).
    unfold NO_WD_PARAM_NAMES. cbn [_list_not_in_name]. now rewrite E.
  - reflexivity.
Qed.

(** ** The control variables of the training loop *)

(** X14: the control variables. The block fails exactly when the data
    loader has a length and [gradient_accumulation_steps] is 0 (the
    division), or when it has no length and [max_steps] is not positive
    ([ValueError]). Otherwise there is at least one update step per
    epoch; a positive [args.max_steps] is taken as it is, and with a
    sized data loader the number of epochs is then exactly what it
    needs: the epochs cover [max_steps], and one epoch less would not.
    Without a length, one epoch is [max_steps] steps long. *)
Theorem control_variables_plan (args : TrainingArguments)
  (epochs : EpochArithmetic) (len_dataloader : option Z)
  (dataset_examples : Z) :
  ((exists e,
      control_variables args epochs len_dataloader dataset_examples
      = Raise e)
   <-> (len_dataloader <> None /\ gradient_accumulation_steps args = 0%Z)
       \/ (len_dataloader = None /\ (args_max_steps args <= 0)%Z))
  /\ (forall cv,
        control_variables args epochs len_dataloader dataset_examples
        = Ok cv ->
        (1 <= num_update_steps_per_epoch cv)%Z
        /\ ((0 < args_max_steps args)%Z ->
            max_steps cv = args_max_steps args
            /\ (len_dataloader <> None ->
                ((num_train_epochs cv - 1) * num_update_steps_per_epoch cv
                 < max_steps cv
                 /\ max_steps cv
                    <= num_train_epochs cv
                       * num_update_steps_per_epoch cv)%Z))
        /\ (len_dataloader = None ->
            num_train_epochs cv = sys_maxsize
            /\ num_update_steps_per_epoch cv = max_steps cv)).
Proof.
  unfold control_variables, py_floordiv.
  destruct len_dataloader as [len|].
  - destruct (Z.eqb_spec (gradient_accumulation_steps args) 0) as [Hg|Hg];
      simpl.
    { split.
      - split; [intros _; left; split; [discriminate | exact Hg]
               | intros _; now exists ZeroDivisionError].
      - intros cv H. discriminate. }
    set (n := Z.max (len / gradient_accumulation_steps args) 1).
    assert (Hn : (1 <= n)%Z) by (unfold n; lia).
    destruct (Z.ltb_spec 0 (args_max_steps args)) as [Hm|Hm].
    + split.
      * split; [intros (e & H); discriminate
               | intros [(_ & H)|(H & _)]; [now elim Hg | discriminate]].
      * intros cv H. injection H as <-. simpl.
        split; [exact Hn|]. split; [|discriminate].
        intros _. split; [reflexivity|]. intros _.
        pose proof (Z.div_mod (args_max_steps args) n ltac:(lia)) as Hdm.
        pose proof (Z.mod_pos_bound (args_max_steps args) n ltac:(lia)) as Hb.
        destruct (Z.ltb_spec 0 (args_max_steps args mod n)); nia.
    + split.
      * split; [intros (e & H); discriminate
               | intros [(_ & H)|(H & _)]; [now elim Hg | discriminate]].
      * intros cv H. injection H as <-. simpl.
        split; [exact Hn|]. split; [lia | discriminate].
  - destruct (Z.ltb_spec 0 (args_max_steps args)) as [Hm|Hm].
    + split.
      * split; [intros (e & H); discriminate
               | intros [(H & _)|(_ & H)]; [now elim H | lia]].
      * intros cv H. injection H as <-. simpl.
        split; [lia|]. split; [|now split].
        intros _. split; [reflexivity|]. intros H. now elim H.
    + split.
      * split; [intros _; right; now split | intros _; now exists ValueError].
      * intros cv H. discriminate.
Qed.

(** X15: resuming at [global_step], with at least one update step per
    epoch: the epochs already trained and the batches to skip account
    for exactly [global_step] update steps of
    [gradient_accumulation_steps] batches each, and the skipped batches
    are fewer than one epoch's; with [ignore_data_skip] no batch is
    skipped. *)
Theorem resume_position_accounts (args : TrainingArguments)
  (per_epoch global_step : Z) :
  (1 <= per_epoch)%Z ->
  (0 <= global_step)%Z ->
  (0 <= gradient_accumulation_steps args)%Z ->
  exists epochs_trained steps_to_skip,
    resume_position args per_epoch global_step
    = Ok (epochs_trained, steps_to_skip)
    /\ (0 <= epochs_trained)%Z
    /\ (epochs_trained * per_epoch <= global_step
        < (epochs_trained + 1) * per_epoch)%Z
    /\ (if ignore_data_skip args then steps_to_skip = 0%Z
        else (epochs_trained * per_epoch * gradient_accumulation_steps args
              + steps_to_skip
              = global_step * gradient_accumulation_steps args
              /\ 0 <= steps_to_skip
                 <= (per_epoch - 1) * gradient_accumulation_steps args)%Z).
Proof.
  intros Hp Hg Ha. unfold resume_position, py_floordiv, py_mod.
  destruct (Z.eqb_spec per_epoch 0) as [H0|_]; [lia|]. simpl.
  pose proof (Z.div_mod global_step per_epoch ltac:(lia)) as Hdm.
  pose proof (Z.mod_pos_bound global_step per_epoch ltac:(lia)) as Hb.
  assert (Hq : (0 <= global_step / per_epoch)%Z)
    by (apply Z.div_pos; lia).
  destruct (ignore_data_skip args); simpl; do 2 eexists;
    (split; [reflexivity|]); (split; [exact Hq|]); (split; [nia|]).
  - reflexivity.
  - nia.
Qed.

(** ** The further properties at the demo trainer *)

Lemma init_succeeds (u : bool) (mn mx : R) (n : Z) (m : store) :
  mn <> 0 -> 0 < mx / mn -> (0 <= n)%Z ->
  exists t, __init__ u mn mx n m = Ok t.
Proof.
  intros Hmn Hq Hn. unfold __init__, py_truediv, math_log, np_linspace.
  destruct (Req_dec_T mn 0) as [H|_]; [now elim Hmn|]. simpl.
  destruct (Rlt_dec 0 (mx / mn)) as [_|H]; [|now elim H]. simpl.
  destruct (Z.ltb_spec n 0) as [H|_]; [lia|]. simpl. now eexists.
Qed.

Lemma perturb_parameters_frame_witness :
  exists w',
    perturb_parameters demo_normal 2 (Some 7%Z) demo_world = (Ok tt, w')
    /\ map name (model (self w')) = ["weight"%string]
    /\ numpy_pos w' = 0%nat.
Proof.
  destruct (perturb_parameters_frame demo_normal 2 (Some 7%Z) demo_world
              7%Z [0%nat] eq_refl eq_refl)
    as (w' & E & Hname & _ & _ & _ & _ & _ & Hnp).
  exists w'. split; [exact E|]. split; [exact Hname | exact Hnp].
Defined.

Lemma perturb_parameters_additive_witness :
  exists w1 w2 w3,
    perturb_parameters demo_normal 2 (Some 7%Z) demo_world = (Ok tt, w1)
    /\ perturb_parameters demo_normal 3 (Some 7%Z) w1 = (Ok tt, w2)
    /\ perturb_parameters demo_normal (2 + 3) (Some 7%Z) demo_world
       = (Ok tt, w3)
    /\ w2 = w3.
Proof.
  destruct (perturb_parameters_additive demo_normal 2 3 7%Z demo_world
              [0%nat] eq_refl)
    as (w1 & w2 & w3 & w0 & E1 & E2 & E3 & Heq & _).
  exists w1, w2, w3. repeat split; assumption.
Defined.




Lemma gld_step_descends_witness :
  exists l w1,
    gld_step demo_normal demo_randint unit (loss_if_moved f0_9 f0_5) tt
      demo_world = (Ok l, w1)
    /\ best_scale (self w1) = Some 8
    /\ loss_lt l (loss_if_moved f0_9 f0_5 (model (self demo_world)) tt)
       = true.
Proof.
  pose proof (gld_step_run_explicit demo_normal demo_randint unit
                (loss_if_moved f0_9 f0_5) tt demo_world [0%nat] eq_refl)
    as E.
  destruct (demo_moved_step f0_9 f0_5) as [Hb Ht].
  unfold step_winner in E. rewrite Hb, Ht in E.
  destruct (gld_step_descends demo_normal demo_randint unit
              (loss_if_moved f0_9 f0_5) tt demo_world [0%nat] _ _ eq_refl E)
    as (H & _).
  do 2 eexists. split; [exact E|]. split; [reflexivity | exact H].
Defined.

Lemma search_space_evenly_spaced_witness :
  exists t,
    __init__ true 1 8 4 [] = Ok t
    /\ length (search_space t) = 4%nat
    /\ nth_error (search_space t) 0 = Some 0.
Proof.
  destruct (init_succeeds true 1 8 4 []) as (t & Ht); [lra|lra|lia|].
  destruct (search_space_evenly_spaced true 1 8 4 [] t Ht)
    as (Hlen & _ & _ & H0 & _).
  exists t. split; [exact Ht|]. split; [exact Hlen|]. apply H0. lia.
Defined.

Lemma trial_scales_within_radii_witness :
  exists t,
    __init__ true 1 8 1 demo_model = Ok t
    /\ 1 < trial_of_radius (max_radius t) 0 <= 8.
Proof.
  pose proof demo_trainer_constructed as Ht.
  destruct (trial_scales_within_radii true 1 8 1 demo_model _ 0 Ht)
    as (_ & H); [lra | lra | now left |].
  eexists. split; [exact Ht | exact H].
Defined.

Lemma resume_position_accounts_witness :
  exists epochs_trained steps_to_skip,
    resume_position demo_args 5 12 = Ok (epochs_trained, steps_to_skip)
    /\ (epochs_trained * 5 <= 12 < (epochs_trained + 1) * 5)%Z.
Proof.
  destruct (resume_position_accounts demo_args 5 12)
    as (e & k & E & _ & H & _); [lia | lia | simpl; lia |].
  exists e, k. split; [exact E | exact H].
Defined.

Lemma perturb_parameters_resets_generator_witness :
  torch_rng (snd (perturb_parameters demo_normal 2 (Some 7%Z) demo_world))
  = {| rng_seed := 7; rng_pos := 1 |}.
Proof.
  exact (proj2 (perturb_parameters_resets_generator demo_normal 2 7%Z
                  demo_world {| rng_seed := 42; rng_pos := 17 |})
           [0%nat] eq_refl).
Defined.

Lemma control_variables_plan_witness :
  exists cv,
    control_variables demo_args demo_epochs (Some 6%Z) 24 = Ok cv
    /\ ((num_train_epochs cv - 1) * num_update_steps_per_epoch cv
        < max_steps cv
        <= num_train_epochs cv * num_update_steps_per_epoch cv)%Z.
Proof.
  eexists. split; [reflexivity|].
  destruct (proj2 (control_variables_plan demo_args demo_epochs (Some 6%Z) 24)
              _ eq_refl)
    as (_ & H & _).
  apply H; [reflexivity | discriminate].
Defined.

(** ** The code in full at the demo trainer *)

(** A step that returns, with the constant loss 0.5 and a forward pass
    that returns. *)
Lemma gld_step_leaves_parameters_witness :
  exists l w',
    gld_step_full demo_normal demo_randint unit (loss_const f0_5)
      forward_returns tt demo_world = (Ok l, w')
    /\ model (self w') = model (self demo_world).
Proof.
  pose proof (gld_step_run_explicit demo_normal demo_randint unit
                (loss_const f0_5) tt demo_world [0%nat] eq_refl) as E.
  rewrite <- (gld_step_full_returning demo_normal demo_randint unit
                (loss_const f0_5) forward_returns tt demo_world
                (fun _ => eq_refl)) in E.
  destruct (gld_step_leaves_parameters demo_normal demo_randint unit
              (loss_const f0_5) forward_returns tt demo_world _ _ E)
    as (Hm & _).
  do 2 eexists. split; [exact E | exact Hm].
Defined.

(** The trial that won at scale 8 with seed 1, replayed. *)
Lemma gld_step_trials_replay_witness :
  exists l w1 w2,
    gld_step_full demo_normal demo_randint unit (loss_if_moved f0_9 f0_5)
      forward_returns tt demo_world = (Ok l, w1)
    /\ perturb_parameters demo_normal 8 (Some 1%Z) w1 = (Ok tt, w2)
    /\ f0_5 = loss_if_moved f0_9 f0_5 (model (self w2)) tt.
Proof.
  pose proof (gld_step_run_explicit demo_normal demo_randint unit
                (loss_if_moved f0_9 f0_5) tt demo_world [0%nat] eq_refl)
    as E.
  rewrite <- (gld_step_full_returning demo_normal demo_randint unit
                (loss_if_moved f0_9 f0_5) forward_returns tt demo_world
                (fun _ => eq_refl)) in E.
  destruct (demo_moved_step f0_9 f0_5) as [Hb Ht].
  unfold step_winner in E. rewrite Hb, Ht in E.
  destruct (gld_step_trials_replay demo_normal demo_randint unit
              (loss_if_moved f0_9 f0_5) forward_returns tt demo_world
              [0%nat] _ _ (f0_5, 1%Z, Some 8) eq_refl E)
    as (w2 & E2 & _ & Hl).
  { right. left. reflexivity. }
  do 3 eexists. split; [exact E|]. split; [exact E2 | exact Hl].
Defined.

(** No search space: the step returns the baseline loss, and the commit
    after it returns with a scheduler and stops without one. *)
Lemma gld_step_empty_search_space_witness :
  exists l w1,
    gld_step_full demo_normal demo_randint unit (loss_const f0_5)
      forward_returns tt empty_space_world = (Ok l, w1)
    /\ l = f0_5
    /\ fst (gld_update_full demo_normal true w1) = Ok tt
    /\ fst (gld_update_full demo_normal false w1) = Raise AttributeError.
Proof.
  destruct (gld_step_empty_search_space demo_normal demo_randint unit
              (loss_const f0_5) forward_returns true tt empty_space_world
              eq_refl eq_refl)
    as (E & _ & _ & Hyes & _).
  destruct (gld_step_empty_search_space demo_normal demo_randint unit
              (loss_const f0_5) forward_returns false tt empty_space_world
              eq_refl eq_refl)
    as (_ & _ & _ & _ & Hno).
  do 2 eexists. split; [exact E|]. split; [reflexivity|].
  split; [exact (proj1 (Hyes eq_refl)) | exact (proj1 (Hno eq_refl))].
Defined.

(** One trial at scale 8: with a forward pass that returns, the
    parameter is back at 0; with one that raises once the parameter has
    moved, the trial raises and the parameter is left at 8. *)
Lemma do_trial_contract_witness :
  (exists t w',
     do_trial_full demo_normal demo_randint unit (loss_const f0_5)
       forward_returns tt 8 demo_world = (Ok t, w')
     /\ self w' = with_gld_seed (Some 0%Z) (self demo_world))
  /\ (exists w',
        do_trial_full demo_normal demo_randint unit (loss_const f0_5)
          (raise_if_moved ValueError) tt 8 demo_world = (Raise ValueError, w')
        /\ model (self w') = [mkParam "weight" true [8]]).
Proof.
  split.
  - destruct (do_trial_contract demo_normal demo_randint unit
                (loss_const f0_5) forward_returns tt 8 demo_world [0%nat]
                eq_refl)
      as (w1 & _ & w' & E & Hself & _).
    do 2 eexists. split; [exact E | exact Hself].
  - destruct (do_trial_contract demo_normal demo_randint unit
                (loss_const f0_5) (raise_if_moved ValueError) tt 8 demo_world
                [0%nat] eq_refl)
      as (w1 & E1 & H).
    change (demo_randint (numpy_pos demo_world)) with 0%Z in E1, H.
    rewrite (perturb_parameters_run demo_normal 8 (Some 0%Z) demo_world 0%Z
               [0%nat] eq_refl eq_refl) in E1.
    injection E1 as <-.
    unfold raise_if_moved in H at 1. simpl in H. unfold demo_normal in H.
    simpl in H.
    destruct (Req_dec_T (0 + 8 * 1) 0) as [Hz|_]; [exfalso; lra|].
    destruct H as (w' & E & Hself & _).
    exists w'. split; [exact E|]. rewrite Hself. store_eq.
Defined.
